(** * Word document formatting layer: tables.py and format_tools.py

    A shallow embedding of the style-mutation code of the Word document
    server (core/tables.py and tools/format_tools.py) together with the
    properties its specification states about it.

    Text is modelled as [string] over 8-bit characters; case mapping acts on
    the ASCII letters.  The host document library (python-docx) is modelled
    by the small part of its object model the code touches: runs with their
    character formatting, paragraphs as run sequences, cell property
    containers as lists of markup elements, and tables whose rows list cell
    handles into a shared store (a merged cell is one object reachable from
    several positions). *)

From Stdlib Require Import ZArith Lia Ascii String List Bool.
From stdpp Require Import base option list strings.
Import ListNotations.

Local Open Scope string_scope.
Local Open Scope list_scope.
Local Open Scope Z_scope.

(** ** Python built-ins used by the code *)

Module Py.

(** [len(s)] *)
Definition len (s : string) : Z := Z.of_nat (String.length s).

Fixpoint take (n : nat) (s : string) : string :=
  match n, s with
  | S n', String c s' => String c (take n' s')
  | _, _ => EmptyString
  end.

Fixpoint drop (n : nat) (s : string) : string :=
  match n, s with
  | S n', String _ s' => drop n' s'
  | _, _ => s
  end.

(** Index normalisation of a slice bound: negative bounds count from the
    end, and every bound is clamped to [0, len]. *)
Definition clamp (n i : Z) : Z :=
  if i <? 0 then Z.max 0 (n + i) else Z.min i n.

(** [s[lo:hi]]; an omitted bound is [None]. *)
Definition slice (s : string) (lo hi : option Z) : string :=
  let n := len s in
  let a := match lo with Some i => clamp n i | None => 0 end in
  let b := match hi with Some i => clamp n i | None => n end in
  take (Z.to_nat (b - a)) (drop (Z.to_nat a) s).

(** [s.lstrip(c)] for a one-character set: every leading [c] goes. *)
Fixpoint lstrip (c : ascii) (s : string) : string :=
  match s with
  | String c' s' => if Ascii.eqb c' c then lstrip c s' else s
  | EmptyString => EmptyString
  end.

Definition upper_char (c : ascii) : ascii :=
  let n := nat_of_ascii c in
  if ((97 <=? n) && (n <=? 122))%nat then ascii_of_nat (n - 32) else c.

Definition lower_char (c : ascii) : ascii :=
  let n := nat_of_ascii c in
  if ((65 <=? n) && (n <=? 90))%nat then ascii_of_nat (n + 32) else c.

Fixpoint map_chars (f : ascii -> ascii) (s : string) : string :=
  match s with
  | String c s' => String (f c) (map_chars f s')
  | EmptyString => EmptyString
  end.

(** [s.upper()] and [s.lower()] *)
Definition upper : string -> string := map_chars upper_char.
Definition lower : string -> string := map_chars lower_char.

(** Truth value of a string: non-empty. *)
Definition truthy (s : string) : bool :=
  match s with EmptyString => false | _ => true end.

(** [d.get(k)] on a dict kept as an association list in insertion order. *)
Fixpoint get {V : Type} (k : string) (d : list (string * V)) : option V :=
  match d with
  | [] => None
  | (k', v) :: d' => if String.eqb k' k then Some v else get k d'
  end.

Definition hex_digit (c : ascii) : option Z :=
  let n := Z.of_nat (nat_of_ascii c) in
  if (48 <=? n) && (n <=? 57) then Some (n - 48)
  else if (65 <=? n) && (n <=? 70) then Some (n - 55)
  else if (97 <=? n) && (n <=? 102) then Some (n - 87)
  else None.

Fixpoint hex_digits (acc : Z) (s : string) : option Z :=
  match s with
  | EmptyString => Some acc
  | String c s' =>
      match hex_digit c with
      | Some d => hex_digits (16 * acc + d) s'
      | None => None
      end
  end.

(** [int(s, 16)] on the non-empty strings of hexadecimal digits, where it
    is the number they spell; [None] on every other string.  The code is
    embedded over an arbitrary [int(., 16)]; this reading serves to run
    it on concrete inputs. *)
Definition int16_digits (s : string) : option Z :=
  match s with
  | EmptyString => None
  | _ => hex_digits 0 s
  end.

End Py.

(** ** The document object model, as far as the code uses it *)

Module Docx.

(** docx.shared.RGBColor: three channels, each checked to lie in 0..255
    when the value is built. *)
Record RGBColor := mkRGB { red : Z; green : Z; blue : Z }.

Definition channel_ok (v : Z) : bool := (0 <=? v) && (v <=? 255).

Definition RGBColor_new (r g b : Z) : option RGBColor :=
  if channel_ok r && channel_ok g && channel_ok b
  then Some (mkRGB r g b) else None.

(** docx.shared.Pt: a length in English metric units. *)
Definition Pt (points : Z) : Z := points * 12700.

(** The half-point size attribute accepts an unsigned 64-bit length. *)
Definition size_accepted (emu : Z) : bool :=
  (0 <=? emu) && (emu <=? 18446744073709551615).

(** A run: its text and the character formatting the code reads or
    writes.  [None] is the library's "inherit" value. *)
Record run := mkRun {
  text : string;
  bold : option bool;
  italic : option bool;
  underline : option bool;
  font_color : option RGBColor;
  font_size : option Z;
  font_name : option string
}.

(** [run.clear()]: the content goes, the run and its formatting stay. *)
Definition run_clear (r : run) : run :=
  mkRun EmptyString (bold r) (italic r) (underline r)
        (font_color r) (font_size r) (font_name r).

(** The run [paragraph.add_run(text)] creates: no formatting of its own. *)
Definition new_run (t : string) : run :=
  mkRun t None None None None None None.

Definition set_bold (b : bool) (r : run) : run :=
  mkRun (text r) (Some b) (italic r) (underline r)
        (font_color r) (font_size r) (font_name r).

Definition set_italic (b : bool) (r : run) : run :=
  mkRun (text r) (bold r) (Some b) (underline r)
        (font_color r) (font_size r) (font_name r).

Definition set_underline (b : bool) (r : run) : run :=
  mkRun (text r) (bold r) (italic r) (Some b)
        (font_color r) (font_size r) (font_name r).

Definition set_font_color (c : RGBColor) (r : run) : run :=
  mkRun (text r) (bold r) (italic r) (underline r)
        (Some c) (font_size r) (font_name r).

Definition set_font_size (emu : Z) (r : run) : run :=
  mkRun (text r) (bold r) (italic r) (underline r)
        (font_color r) (Some emu) (font_name r).

Definition set_font_name (n : string) (r : run) : run :=
  mkRun (text r) (bold r) (italic r) (underline r)
        (font_color r) (font_size r) (Some n).

(** A paragraph is its run sequence. *)
Record paragraph := mkParagraph { runs : list run }.

Fixpoint concat_text (rs : list run) : string :=
  match rs with
  | [] => EmptyString
  | r :: rs' => text r +:+ concat_text rs'
  end.

(** [paragraph.text] *)
Definition paragraph_text (p : paragraph) : string := concat_text (runs p).

(** A markup element: tag, attributes in document order, children. *)
#[warnings="-register-all"]
Inductive element :=
| Elem (tag : string) (attrib : list (string * string)) (children : list element).

Definition tag (e : element) : string := let 'Elem t _ _ := e in t.
Definition attrib (e : element) : list (string * string) := let 'Elem _ a _ := e in a.
Definition children (e : element) : list element := let 'Elem _ _ c := e in c.

Definition has_tag (t : string) (e : element) : bool := String.eqb (tag e) t.

(** A table cell: the children of its property container [w:tcPr]
    ([None] while the cell has no container yet) and its paragraphs. *)
Record cell := mkCell {
  tcPr : option (list element);
  paragraphs : list paragraph
}.

(** A table: the cell objects, and for each row the handles of the cells
    [row.cells] yields, by position.  A merged cell is one object whose
    handle occurs at every position it covers. *)
Record table := mkTable {
  cells : list cell;
  rows : list (list nat)
}.

End Docx.

(** ** core/tables.py *)

Module Tables.
Import Docx.

(** Values a keyword argument of [set_cell_border] can hold. *)
Inductive pyval :=
| PyBool (b : bool)
| PyStr (s : string).

Definition kwargs := list (string * pyval).

Definition edge_keys : list string := ["top"; "left"; "bottom"; "right"].

Definition is_edge_key (key : string) : bool :=
  existsb (String.eqb key) edge_keys.

(** [kwargs.get(k, default)] handed to [element.set], which takes text
    only: [None] stands for the TypeError it raises otherwise. *)
Definition kw_text (kw : kwargs) (k default : string) : option string :=
  match Py.get k kw with
  | None => Some default
  | Some (PyStr s) => Some s
  | Some (PyBool _) => None
  end.

(** Lines 24-30: the edge definition for one key. *)
Definition border_element (kw : kwargs) (key : string) : option element :=
  val ← kw_text kw "val" "single";
  sz ← kw_text kw "sz" "4";
  space ← kw_text kw "space" "0";
  color ← kw_text kw "color" "auto";
  Some (Elem ("w:" +:+ key)
             [("w:val", val); ("w:sz", sz); ("w:space", space); ("w:color", color)]
             []).

(** [get_or_add_tcPr]: the children of the container, empty when it is
    created by the call. *)
Definition get_or_add_tcPr (c : cell) : list element :=
  match tcPr c with
  | Some cs => cs
  | None => []
  end.

(** Appends [e] to the first child tagged [t], if there is one. *)
Fixpoint append_in_first (t : string) (e : element) (cs : list element)
    : option (list element) :=
  match cs with
  | [] => None
  | c :: cs' =>
      if has_tag t c
      then Some (Elem (tag c) (attrib c) (children c ++ [e]) :: cs')
      else cons c <$> append_in_first t e cs'
  end.

(** Lines 32-37: find the border collection, create it at the end of the
    container when there is none, and append the edge to it. *)
Definition append_edge (e : element) (cs : list element) : list element :=
  match append_in_first "w:tcBorders" e cs with
  | Some cs' => cs'
  | None => cs ++ [Elem "w:tcBorders" [] [e]]
  end.

(** The loop of lines 22-37 over [kwargs.items()]; the flag is [false]
    when an exception ended it. *)
Fixpoint border_loop (kw : kwargs) (items : kwargs) (cs : list element)
    : list element * bool :=
  match items with
  | [] => (cs, true)
  | (key, _) :: rest =>
      if is_edge_key key
      then match border_element kw key with
           | Some e => border_loop kw rest (append_edge e cs)
           | None => (cs, false)
           end
      else border_loop kw rest cs
  end.

(** [set_cell_border(cell, **kwargs)]: the cell afterwards, and whether
    the call returned (rather than raised). *)
Definition set_cell_border (c : cell) (kw : kwargs) : cell * bool :=
  let '(cs, ok) := border_loop kw kw (get_or_add_tcPr c) in
  (mkCell (Some cs) (paragraphs c), ok).

(** [tc_pr.find(tag)] followed by [tc_pr.remove] of what it found. *)
Fixpoint remove_first (t : string) (cs : list element) : list element :=
  match cs with
  | [] => []
  | c :: cs' => if has_tag t c then cs' else c :: remove_first t cs'
  end.

(** Line 175: [fill_color.lstrip('#').upper()]. *)
Definition normalize_fill_color (fill_color : string) : string :=
  Py.upper (Py.lstrip "#" fill_color).

(** Lines 166-181 for a text colour: the attribute dict of the shading. *)
Definition shd_attrs (fill_color : option string) (pattern pattern_color : string)
    : list (string * string) :=
  let base :=
    [("w:val", pattern);
     ("w:color", if negb (String.eqb pattern_color "auto")
                 then pattern_color else "auto")] in
  match fill_color with
  | Some fill_color =>
      if Py.truthy fill_color
      then let fill_color := normalize_fill_color fill_color in
           if Py.len fill_color =? 6
           then base ++ [("w:fill", fill_color)]
           else base
      else base
  | None => base
  end.

Section WithLibrary.

(** [parse_xml] on the text [<w:shd xmlns:w=.. k1="v1" k2="v2" ../>]
    built from the given attribute dict: the attributes of the element
    it returns, or [None] when the text is not well-formed and it
    raises. *)
Variable parse_shd : list (string * string) -> option (list (string * string)).

(** Python's [int(s, 16)]; [None] when it raises. *)
Variable int16 : string -> option Z.

Definition shd_element (a : list (string * string)) : element :=
  Elem "w:shd" a [].

(** [set_cell_shading] with a text (or absent) fill colour: the cell
    afterwards and the boolean returned. *)
Definition set_cell_shading (c : cell) (fill_color : option string)
    (pattern pattern_color : string) : cell * bool :=
  let tc_pr := remove_first "w:shd" (get_or_add_tcPr c) in
  match parse_shd (shd_attrs fill_color pattern pattern_color) with
  | Some a => (mkCell (Some (tc_pr ++ [shd_element a])) (paragraphs c), true)
  | None => (mkCell (Some tc_pr) (paragraphs c), false)
  end.

(** [for cell in row.cells: set_cell_shading(cell, fill_color=..)] *)
Definition shade_row (fill_color : string) (row : list nat) (store : list cell)
    : list cell :=
  foldl (fun st id =>
           alter (fun c => fst (set_cell_shading c (Some fill_color) "clear" "auto"))
                 id st)
        store row.

(** [for i, row in enumerate(table.rows)], from index [i] on. *)
Fixpoint shade_rows (i : nat) (color1 color2 : string)
    (rs : list (list nat)) (store : list cell) : list cell :=
  match rs with
  | [] => store
  | row :: rs' =>
      let fill_color := if (i mod 2 =? 0)%nat then color1 else color2 in
      shade_rows (S i) color1 color2 rs' (shade_row fill_color row store)
  end.

Definition apply_alternating_row_shading (t : table) (color1 color2 : string)
    : table * bool :=
  (mkTable (shade_rows 0 color1 color2 (rows t) (cells t)) (rows t), true).

(** Lines 246-250: the colour read from the stripped text. *)
Definition hex_to_rgb (text_color : string) : option RGBColor :=
  r ← int16 (Py.slice text_color (Some 0) (Some 2));
  g ← int16 (Py.slice text_color (Some 2) (Some 4));
  b ← int16 (Py.slice text_color (Some 4) (Some 6));
  RGBColor_new r g b.

(** Lines 242-252 for one run.  [text_color] is a local variable the
    body reassigns, so its value is threaded from run to run. *)
Definition highlight_run (text_color : string) (r : run) : string * run :=
  let r := set_bold true r in
  if Py.truthy text_color && negb (String.eqb text_color "auto")
  then let text_color := Py.lstrip "#" text_color in
       match hex_to_rgb text_color with
       | Some rgb => (text_color, set_font_color rgb r)
       | None => (text_color, r)
       end
  else (text_color, r).

Fixpoint map_accum {S A : Type} (f : S -> A -> S * A) (s : S) (l : list A)
    : S * list A :=
  match l with
  | [] => (s, [])
  | x :: l' =>
      let '(s1, x') := f s x in
      let '(s2, l'') := map_accum f s1 l' in
      (s2, x' :: l'')
  end.

Definition highlight_paragraph (text_color : string) (p : paragraph)
    : string * paragraph :=
  let '(text_color, rs) := map_accum highlight_run text_color (runs p) in
  (text_color, mkParagraph rs).

(** Lines 236-252 for one cell of the header row. *)
Definition highlight_cell (header_color : string) (text_color : string) (c : cell)
    : string * cell :=
  let c := fst (set_cell_shading c (Some header_color) "clear" "auto") in
  let '(text_color, ps) := map_accum highlight_paragraph text_color (paragraphs c) in
  (text_color, mkCell (tcPr c) ps).

Fixpoint highlight_cells (header_color text_color : string)
    (row : list nat) (store : list cell) : list cell :=
  match row with
  | [] => store
  | id :: row' =>
      match store !! id with
      | Some c =>
          let '(text_color, c') := highlight_cell header_color text_color c in
          highlight_cells header_color text_color row' (<[id := c']> store)
      | None => highlight_cells header_color text_color row' store
      end
  end.

Definition highlight_header_row (t : table) (header_color text_color : string)
    : table * bool :=
  match rows t with
  | row0 :: _ =>
      (mkTable (highlight_cells header_color text_color row0 (cells t)) (rows t),
       true)
  | [] => (t, true)
  end.

(** [table.rows[i].cells] *)
Definition row_cells (t : table) (i : Z) : list nat :=
  default [] (rows t !! Z.to_nat i).

(** [set_cell_shading_by_position] *)
Definition set_cell_shading_by_position (t : table) (row_index col_index : Z)
    (fill_color : option string) (pattern : string) : table * bool :=
  if (0 <=? row_index) && (row_index <? Z.of_nat (length (rows t)))
     && (0 <=? col_index)
     && (col_index <? Z.of_nat (length (row_cells t row_index)))
  then match row_cells t row_index !! Z.to_nat col_index with
       | Some id =>
           match cells t !! id with
           | Some c =>
               let '(c', ok) := set_cell_shading c fill_color pattern "auto" in
               (mkTable (<[id := c']> (cells t)) (rows t), ok)
           | None => (t, false)
           end
       | None => (t, false)
       end
  else (t, false).

Definition val_map : list (string * string) :=
  [("none", "nil"); ("single", "single"); ("double", "double"); ("thick", "thick")].

(** The keyword arguments of the call at lines 76-84. *)
Definition border_kwargs (val : string) : kwargs :=
  [("top", PyBool true); ("bottom", PyBool true); ("left", PyBool true);
   ("right", PyBool true); ("val", PyStr val); ("color", PyStr "000000")].

(** Lines 58-61 for one cell of the header row. *)
Definition embolden_cell (c : cell) : cell :=
  mkCell (tcPr c)
         (map (fun p => mkParagraph (map (set_bold true) (runs p))) (paragraphs c)).

Definition embolden_row (row : list nat) (store : list cell) : list cell :=
  foldl (fun st id => alter embolden_cell id st) store row.

(** Lines 74-84 over the cells in row-major order; the flag is [false]
    when a call raised. *)
Fixpoint border_cells (kw : kwargs) (ids : list nat) (store : list cell)
    : list cell * bool :=
  match ids with
  | [] => (store, true)
  | id :: ids' =>
      match store !! id with
      | Some c =>
          let '(c', ok) := set_cell_border c kw in
          if ok then border_cells kw ids' (<[id := c']> store)
          else (<[id := c']> store, false)
      | None => border_cells kw ids' store
      end
  end.

(** Lines 97-98: the fragment is appended to the container. *)
Definition append_shd (a : list (string * string)) (c : cell) : cell :=
  mkCell (Some (get_or_add_tcPr c ++ [shd_element a])) (paragraphs c).

(** Lines 91-101, from column [j] on. *)
Fixpoint shade_matrix_row (j : nat) (row_colors : list string)
    (row : list nat) (store : list cell) : list cell :=
  match row_colors with
  | [] => store
  | color :: row_colors' =>
      match row !! j with
      | None => store
      | Some id =>
          let store :=
            match parse_shd [("w:fill", color)] with
            | Some a => alter (append_shd a) id store
            | None => store
            end in
          shade_matrix_row (S j) row_colors' row store
      end
  end.

(** Lines 88-101, from row [i] on. *)
Fixpoint shade_matrix (i : nat) (shading : list (list string))
    (rs : list (list nat)) (store : list cell) : list cell :=
  match shading with
  | [] => store
  | row_colors :: shading' =>
      match rs !! i with
      | None => store
      | Some row =>
          shade_matrix (S i) shading' rs (shade_matrix_row 0 row_colors row store)
      end
  end.

(** [apply_table_style] *)
Definition apply_table_style (t : table) (has_header_row : bool)
    (border_style : option string) (shading : option (list (list string)))
    : table * bool :=
  let store := cells t in
  let store :=
    if has_header_row
    then match rows t with
         | header_row :: _ => embolden_row header_row store
         | [] => store
         end
    else store in
  let '(store, ok) :=
    match border_style with
    | Some border_style =>
        if Py.truthy border_style
        then let val := default "single" (Py.get (Py.lower border_style) val_map) in
             border_cells (border_kwargs val) (concat (rows t)) store
        else (store, true)
    | None => (store, true)
    end in
  if ok
  then let store :=
         match shading with
         | Some shading => shade_matrix 0 shading (rows t) store
         | None => store
         end in
       (mkTable store (rows t), true)
  else (mkTable store (rows t), false).

End WithLibrary.

(** *** Readings of a container used to state the properties *)

(** Number of children carrying tag [t]. *)
Definition count_tag (t : string) (cs : list element) : nat :=
  length (filter (fun e => has_tag t e = true) cs).

(** [container.find(t)]: the first child carrying tag [t]. *)
Fixpoint find_first (t : string) (cs : list element) : option element :=
  match cs with
  | [] => None
  | c :: cs' => if has_tag t c then Some c else find_first t cs'
  end.

(** Number of edge definitions named [key] in the border collection of a
    container (the first [w:tcBorders] child), none when it has none. *)
Definition edge_count (key : string) (cs : list element) : nat :=
  match find_first "w:tcBorders" cs with
  | Some b => count_tag ("w:" +:+ key) (children b)
  | None => 0%nat
  end.

(** The keyword arguments [val], [sz], [space] and [color], where given,
    hold text. *)
Definition text_valued (kw : kwargs) : bool :=
  forallb (fun k => match Py.get k kw with
                    | Some (PyBool _) => false
                    | _ => true
                    end)
          ["val"; "sz"; "space"; "color"].

(** A text colour the header highlighting reads no colour from: empty,
    ["auto"], or one the hex reading of lines 246-250 fails on.  This is
    the code's own test, not the form of a hex colour: the reading
    succeeds on texts that are not six hexadecimal digits, "12345" and
    "FFFFFFAB" among them (see [valid_fill] for the form). *)
Definition unparsed_text_color (int16 : string -> option Z) (text_color : string)
    : Prop :=
  text_color = EmptyString \/ text_color = "auto"
  \/ hex_to_rgb int16 (Py.lstrip "#" text_color) = None.

(** The data-model invariant of a property container. *)
Definition container_ok (cs : list element) : Prop :=
  (count_tag "w:shd" cs <= 1)%nat /\ (count_tag "w:tcBorders" cs <= 1)%nat.

(** Every cell of a table meets the invariant. *)
Definition cells_ok (store : list cell) : Prop :=
  Forall (fun c => container_ok (get_or_add_tcPr c)) store.

(** The fragment [set_cell_shading] appends for a valid fill colour and the
    default pattern. *)
Definition clear_shd (fill_color : string) : element :=
  shd_element [("w:val", "clear"); ("w:color", "auto");
               ("w:fill", normalize_fill_color fill_color)].

(** Cell [c], which was [c0], is shaded with [fill_color]: its container
    ends with that shading, and this is its only shading fragment when [c0]
    held at most one. *)
Definition shading_is (fill_color : string) (c0 c : cell) : Prop :=
  last (get_or_add_tcPr c) = Some (clear_shd fill_color)
  /\ ((count_tag "w:shd" (get_or_add_tcPr c0) <= 1)%nat ->
      count_tag "w:shd" (get_or_add_tcPr c) = 1%nat).

(** Cell [c], which was [c0], still holds at most one shading fragment if
    [c0] did. *)
Definition shading_bounded (c0 c : cell) : Prop :=
  (count_tag "w:shd" (get_or_add_tcPr c0) <= 1)%nat ->
  (count_tag "w:shd" (get_or_add_tcPr c) <= 1)%nat.

(** The fill colour [apply_alternating_row_shading] passes for the last of
    the rows, numbered from [i] on, that yields the cell [id]; [None] when
    no row yields it. *)
Fixpoint last_fill (i : nat) (color1 color2 : string) (rs : list (list nat))
    (id : nat) : option string :=
  match rs with
  | [] => None
  | row :: rs' =>
      match last_fill (S i) color1 color2 rs' id with
      | Some fill_color => Some fill_color
      | None =>
          if bool_decide (id ∈ row)
          then Some (if (i mod 2 =? 0)%nat then color1 else color2)
          else None
      end
  end.

(** Every handle a row yields names a cell of the table. *)
Definition table_ok (t : table) : Prop :=
  forall row id, row ∈ rows t -> id ∈ row -> (id < length (cells t))%nat.

Fixpoint all_chars (f : ascii -> bool) (s : string) : bool :=
  match s with
  | EmptyString => true
  | String c s' => f c && all_chars f s'
  end.

(** Characters that stand for themselves inside a double-quoted
    attribute value: printable ASCII other than the double quote, the
    ampersand and the less-than sign. *)
Definition plain_char (c : ascii) : bool :=
  let n := nat_of_ascii c in
  ((32 <=? n) && (n <=? 126) && negb (n =? 34) && negb (n =? 38) && negb (n =? 60))%nat.

Definition plain_text : string -> bool := all_chars plain_char.

(** What is assumed of [parse_xml]: a fragment whose attribute names are
    distinct and whose values are plain text is well-formed, and reads
    back as written. *)
Definition parses_plain
    (parse_shd : list (string * string) -> option (list (string * string))) : Prop :=
  forall a, NoDup (map fst a) -> forallb (fun kv => plain_text (snd kv)) a = true ->
            parse_shd a = Some a.

(** A parser that accepts exactly those fragments; it serves to run the
    definitions on concrete inputs. *)
Definition parse_plain (a : list (string * string)) : option (list (string * string)) :=
  if bool_decide (NoDup (map fst a)) && forallb (fun kv => plain_text (snd kv)) a
  then Some a else None.

Definition upper_hex_char (c : ascii) : bool :=
  let n := nat_of_ascii c in
  (((48 <=? n) && (n <=? 57)) || ((65 <=? n) && (n <=? 70)))%nat.

(** The spec's colour form: exactly six hexadecimal digits, upper case. *)
Definition is_hex6 (s : string) : bool :=
  (String.length s =? 6)%nat && all_chars upper_hex_char s.

(** A fill colour text is valid when its normal form is of that form. *)
Definition valid_fill (fill_color : string) : bool :=
  is_hex6 (normalize_fill_color fill_color).

End Tables.
(** ** tools/format_tools.py *)

Module FormatTools.
Import Docx.

(** What a tool call answers.  The code returns a message; the message
    kinds are kept apart here, with the values the message quotes. *)
Inductive reply :=
| DoesNotExist
| CannotModify (error_message : string)
| InvalidParagraphIndex (count : Z)
| InvalidTextPositions (length : Z)
| Formatted (target_text : string) (paragraph_index : Z)
| Failed.

Definition is_error (r : reply) : bool :=
  match r with Formatted _ _ => false | _ => true end.

(** The collaborators [format_text] consults before it touches the
    document: [os.path.exists], [check_file_writeable], and the document
    [Document(filename)] loads. *)
Record file := mkFile {
  file_exists : bool;
  file_writeable : bool * string;
  file_paragraphs : list paragraph
}.

Definition black : RGBColor := mkRGB 0 0 0.

Definition color_map : list (string * RGBColor) :=
  [ ("red", mkRGB 255 0 0);
    ("blue", mkRGB 0 0 255);
    ("green", mkRGB 0 128 0);
    ("yellow", mkRGB 255 255 0);
    ("black", mkRGB 0 0 0);
    ("gray", mkRGB 128 128 128);
    ("white", mkRGB 255 255 255);
    ("purple", mkRGB 128 0 128);
    ("orange", mkRGB 255 165 0) ].

Section WithInt.

(** Python's [int(s, 16)]; [None] when it raises. *)
Variable int16 : string -> option Z.

(** [RGBColor.from_string] *)
Definition RGBColor_from_string (s : string) : option RGBColor :=
  r ← int16 (Py.slice s None (Some 2));
  g ← int16 (Py.slice s (Some 2) (Some 4));
  b ← int16 (Py.slice s (Some 4) None);
  RGBColor_new r g b.

(** The colour the [if color:] block assigns: the named colour, else
    the exact hex reading, else black. *)
Definition resolve_color (color : string) : RGBColor :=
  match Py.get (Py.lower color) color_map with
  | Some c => c
  | None =>
      match RGBColor_from_string color with
      | Some c => c
      | None => black
      end
  end.

(** Lines 88-122: the target run and the formatting put on it.  [None]
    when the size assignment raises. *)
Definition format_target (target_text : string)
    (bold italic underline : option bool) (color : option string)
    (font_size : option Z) (font_name : option string) : option run :=
  let r := new_run target_text in
  let r := match bold with Some b => set_bold b r | None => r end in
  let r := match italic with Some b => set_italic b r | None => r end in
  let r := match underline with Some b => set_underline b r | None => r end in
  let r := match color with
           | Some c => if Py.truthy c then set_font_color (resolve_color c) r else r
           | None => r
           end in
  r ← match font_size with
      | Some n =>
          if n =? 0 then Some r
          else if size_accepted (Pt n) then Some (set_font_size (Pt n) r)
          else None
      | None => Some r
      end;
  Some (match font_name with
        | Some n => if Py.truthy n then set_font_name n r else r
        | None => r
        end).

(** Lines 79-126 on one paragraph: the runs are cleared, then the runs
    before, target and after are added at the end. *)
Definition split_runs (p : paragraph) (start_pos end_pos : Z)
    (bold italic underline : option bool) (color : option string)
    (font_size : option Z) (font_name : option string) : option paragraph :=
  let text := paragraph_text p in
  let target_text := Py.slice text (Some start_pos) (Some end_pos) in
  let rs := map run_clear (runs p) in
  let rs := if 0 <? start_pos
            then rs ++ [new_run (Py.slice text None (Some start_pos))]
            else rs in
  run_target ← format_target target_text bold italic underline color
                 font_size font_name;
  let rs := rs ++ [run_target] in
  let rs := if end_pos <? Py.len text
            then rs ++ [new_run (Py.slice text (Some end_pos) None)]
            else rs in
  Some (mkParagraph rs).

(** [format_text]: the reply, and the paragraphs of the document as the
    file holds them after the call.  The index and position arguments
    are integers already. *)
Definition format_text (f : file) (paragraph_index start_pos end_pos : Z)
    (bold italic underline : option bool) (color : option string)
    (font_size : option Z) (font_name : option string)
    : reply * list paragraph :=
  let doc := file_paragraphs f in
  if negb (file_exists f) then (DoesNotExist, doc)
  else if negb (fst (file_writeable f))
  then (CannotModify (snd (file_writeable f)), doc)
  else
    let count := Z.of_nat (length doc) in
    if (paragraph_index <? 0) || (count <=? paragraph_index)
    then (InvalidParagraphIndex count, doc)
    else
      match doc !! Z.to_nat paragraph_index with
      | None => (Failed, doc)
      | Some paragraph =>
          let text := paragraph_text paragraph in
          if (start_pos <? 0) || (Py.len text <? end_pos)
             || (end_pos <=? start_pos)
          then (InvalidTextPositions (Py.len text), doc)
          else
            match split_runs paragraph start_pos end_pos
                    bold italic underline color font_size font_name with
            | Some paragraph' =>
                (Formatted (Py.slice text (Some start_pos) (Some end_pos))
                           paragraph_index,
                 <[Z.to_nat paragraph_index := paragraph']> doc)
            | None => (Failed, doc)
            end
      end.

End WithInt.

(** *** The table tools *)

(** What a table tool answers: the message kinds of [format_table],
    [set_table_cell_shading], [apply_table_alternating_rows] and
    [highlight_table_header], with the values the message quotes.
    [ToolFailed] is the message of the [else] branch taken when the core
    function returned [False]. *)
Inductive table_reply :=
| TableDocMissing
| TableDocLocked (error_message : string)
| InvalidTableIndex (count : Z)
| InvalidRowIndex (count : Z)
| InvalidColumnIndex (count : Z)
| TableFormatted (table_index : Z)
| CellShaded (table_index row_index col_index : Z)
| RowsShaded (table_index : Z)
| HeaderHighlighted (table_index : Z)
| ToolFailed.

(** The collaborators of a table tool: [os.path.exists],
    [check_file_writeable], and the tables of the document
    [Document(filename)] loads. *)
Record table_file := mkTableFile {
  tf_exists : bool;
  tf_writeable : bool * string;
  tf_tables : list table
}.

(** The checks every table tool starts with: the file exists, is
    writeable, and the table index names a table. *)
Definition open_table (f : table_file) (table_index : Z) : table_reply + table :=
  if negb (tf_exists f) then inl TableDocMissing
  else if negb (fst (tf_writeable f))
  then inl (TableDocLocked (snd (tf_writeable f)))
  else
    let count := Z.of_nat (length (tf_tables f)) in
    if (table_index <? 0) || (count <=? table_index)
    then inl (InvalidTableIndex count)
    else match tf_tables f !! Z.to_nat table_index with
         | Some t => inr t
         | None => inl ToolFailed
         end.

(** [doc.save(filename)] after the table at [table_index] was changed in
    place. *)
Definition save_table (f : table_file) (table_index : Z) (t : table) : list table :=
  <[Z.to_nat table_index := t]> (tf_tables f).

Section TableTools.

Variable parse_shd : list (string * string) -> option (list (string * string)).
Variable int16 : string -> option Z.

(** [format_table]: the reply, and the tables of the document as the file
    holds them after the call. *)
Definition format_table (f : table_file) (table_index : Z)
    (has_header_row : option bool) (border_style : option string)
    (shading : option (list (list string))) : table_reply * list table :=
  match open_table f table_index with
  | inl reply => (reply, tf_tables f)
  | inr t =>
      let '(t', success) :=
        Tables.apply_table_style parse_shd t (default false has_header_row)
          border_style shading in
      if success
      then (TableFormatted table_index, save_table f table_index t')
      else (ToolFailed, tf_tables f)
  end.

(** [set_table_cell_shading]; the index arguments are integers already. *)
Definition set_table_cell_shading (f : table_file)
    (table_index row_index col_index : Z) (fill_color pattern : string)
    : table_reply * list table :=
  match open_table f table_index with
  | inl reply => (reply, tf_tables f)
  | inr t =>
      let row_count := Z.of_nat (length (rows t)) in
      if (row_index <? 0) || (row_count <=? row_index)
      then (InvalidRowIndex row_count, tf_tables f)
      else
        let cell_count := Z.of_nat (length (Tables.row_cells t row_index)) in
        if (col_index <? 0) || (cell_count <=? col_index)
        then (InvalidColumnIndex cell_count, tf_tables f)
        else
          let '(t', success) :=
            Tables.set_cell_shading_by_position parse_shd t row_index col_index
              (Some fill_color) pattern in
          if success
          then (CellShaded table_index row_index col_index,
                save_table f table_index t')
          else (ToolFailed, tf_tables f)
  end.

(** [apply_table_alternating_rows] *)
Definition apply_table_alternating_rows (f : table_file) (table_index : Z)
    (color1 color2 : string) : table_reply * list table :=
  match open_table f table_index with
  | inl reply => (reply, tf_tables f)
  | inr t =>
      let '(t', success) :=
        Tables.apply_alternating_row_shading parse_shd t color1 color2 in
      if success
      then (RowsShaded table_index, save_table f table_index t')
      else (ToolFailed, tf_tables f)
  end.

(** [highlight_table_header] *)
Definition highlight_table_header (f : table_file) (table_index : Z)
    (header_color text_color : string) : table_reply * list table :=
  match open_table f table_index with
  | inl reply => (reply, tf_tables f)
  | inr t =>
      let '(t', success) :=
        Tables.highlight_header_row parse_shd int16 t header_color text_color in
      if success
      then (HeaderHighlighted table_index, save_table f table_index t')
      else (ToolFailed, tf_tables f)
  end.

End TableTools.

End FormatTools.


(** ** Concrete inputs the properties are run on *)

Module Examples.
Import Docx Tables FormatTools.

(** A writeable document whose only paragraph is the single run
    "Hello World". *)
Definition hello_file : file :=
  mkFile true (true, EmptyString) [mkParagraph [new_run "Hello World"]].

(** A cell that already carries one shading fragment, and the one-cell
    table made of it. *)
Definition shaded_cell : cell :=
  mkCell (Some [shd_element [("w:val", "clear"); ("w:color", "auto");
                             ("w:fill", "FFFFFF")]])
         [mkParagraph [new_run "Total"]].

Definition shaded_table : table := mkTable [shaded_cell] [[0%nat]].

(** The keyword arguments [apply_table_style] passes for single borders. *)
Definition single_borders : kwargs := border_kwargs "single".

(** A blank cell, and a two-row table whose rows both yield it: one cell
    merged vertically over the two rows. *)
Definition blank_cell : cell := mkCell None [].

Definition merged_table : table := mkTable [blank_cell] [[0%nat]; [0%nat]].

(** A two-by-two table without merged cells. *)
Definition grid_table : table :=
  mkTable [blank_cell; shaded_cell; blank_cell; blank_cell]
          [[0%nat; 1%nat]; [2%nat; 3%nat]].

(** A cell whose container holds two shading fragments, as two runs of
    [apply_table_style] with a shading matrix leave it. *)
Definition twice_shaded_cell : cell :=
  mkCell (Some [shd_element [("w:fill", "FF0000")];
                shd_element [("w:fill", "00FF00")]])
         [].

(** A writeable document holding the two-by-two table and the merged
    table. *)
Definition tables_file : table_file :=
  mkTableFile true (true, EmptyString) [grid_table; merged_table].

End Examples.

(** * Properties *)

(** ** Facts about the built-ins *)

Module PyFacts.

Lemma append_cons (c : ascii) (s t : string) :
  String c s +:+ t = String c (s +:+ t).
Proof. reflexivity. Qed.

Lemma append_empty_r (s : string) : s +:+ EmptyString = s.
Proof.
  induction s as [|c s IH]; [reflexivity|].
  now rewrite append_cons, IH.
Qed.

Lemma append_assoc (s1 s2 s3 : string) :
  (s1 +:+ s2) +:+ s3 = s1 +:+ (s2 +:+ s3).
Proof.
  induction s1 as [|c s1 IH]; [reflexivity|].
  now rewrite !append_cons, IH.
Qed.

Lemma take_drop (n : nat) (s : string) : Py.take n s +:+ Py.drop n s = s.
Proof.
  revert s; induction n as [|n IH]; intros [|c s]; simpl; try reflexivity.
  now rewrite append_cons, IH.
Qed.

Lemma drop_drop (n m : nat) (s : string) :
  Py.drop m (Py.drop n s) = Py.drop (n + m) s.
Proof.
  revert s; induction n as [|n IH]; intros s; simpl; [reflexivity|].
  destruct s as [|c s]; [now destruct m | apply IH].
Qed.

Lemma take_all (n : nat) (s : string) :
  (String.length s <= n)%nat -> Py.take n s = s.
Proof.
  revert s; induction n as [|n IH]; intros [|c s] H; simpl in *;
    try reflexivity; try lia.
  rewrite IH; [reflexivity | lia].
Qed.

Lemma length_drop (n : nat) (s : string) :
  String.length (Py.drop n s) = (String.length s - n)%nat.
Proof.
  revert s; induction n as [|n IH]; intros [|c s]; simpl; try reflexivity.
  apply IH.
Qed.

Lemma clamp_in_range (n i : Z) : 0 <= i <= n -> Py.clamp n i = i.
Proof.
  intros H. unfold Py.clamp.
  destruct (Z.ltb_spec i 0); lia.
Qed.

Lemma slice_prefix (s : string) (a : Z) :
  0 <= a <= Py.len s -> Py.slice s None (Some a) = Py.take (Z.to_nat a) s.
Proof.
  intros H. unfold Py.slice. rewrite clamp_in_range by assumption.
  now rewrite Z.sub_0_r.
Qed.

Lemma slice_middle (s : string) (a b : Z) :
  0 <= a <= b -> b <= Py.len s ->
  Py.slice s (Some a) (Some b)
  = Py.take (Z.to_nat (b - a)) (Py.drop (Z.to_nat a) s).
Proof.
  intros H1 H2. unfold Py.slice. now rewrite !clamp_in_range by lia.
Qed.

Lemma slice_suffix (s : string) (b : Z) :
  0 <= b <= Py.len s -> Py.slice s (Some b) None = Py.drop (Z.to_nat b) s.
Proof.
  intros H. unfold Py.slice. rewrite clamp_in_range by assumption.
  apply take_all. rewrite length_drop. unfold Py.len in *. lia.
Qed.

(** The three slices the formatter takes make up the text again. *)
Lemma slice_partition (s : string) (a b : Z) :
  0 <= a <= b -> b <= Py.len s ->
  Py.slice s None (Some a)
    +:+ (Py.slice s (Some a) (Some b) +:+ Py.slice s (Some b) None) = s.
Proof.
  intros H1 H2.
  rewrite slice_prefix, slice_middle, slice_suffix by lia.
  replace (Z.to_nat b) with (Z.to_nat a + Z.to_nat (b - a))%nat by lia.
  rewrite <- drop_drop, take_drop. apply take_drop.
Qed.

Lemma slice_empty_prefix (s : string) : Py.slice s None (Some 0) = EmptyString.
Proof.
  unfold Py.slice, Py.clamp. simpl.
  replace (Z.min 0 (Py.len s) - 0) with 0
    by (unfold Py.len; lia).
  reflexivity.
Qed.

Lemma slice_empty_suffix (s : string) : Py.slice s (Some (Py.len s)) None = EmptyString.
Proof.
  unfold Py.slice. rewrite clamp_in_range by (unfold Py.len; lia).
  now rewrite Z.sub_diag.
Qed.

Lemma lstrip_idem (c : ascii) (s : string) :
  Py.lstrip c (Py.lstrip c s) = Py.lstrip c s.
Proof.
  induction s as [|c' s IH]; simpl; [reflexivity|].
  destruct (Ascii.eqb c' c) eqn:E; [assumption|].
  simpl. now rewrite E.
Qed.

End PyFacts.

(** ** The run-splitting text formatter *)

Module FormatToolsProofs.
Import Docx FormatTools.

Lemma concat_text_app (rs1 rs2 : list run) :
  concat_text (rs1 ++ rs2) = concat_text rs1 +:+ concat_text rs2.
Proof.
  induction rs1 as [|r rs1 IH]; simpl; [reflexivity|].
  now rewrite IH, PyFacts.append_assoc.
Qed.

Lemma concat_text_cleared (rs : list run) :
  concat_text (map run_clear rs) = EmptyString.
Proof. induction rs as [|r rs IH]; simpl; [reflexivity | exact IH]. Qed.

Section Formatter.
Variable int16 : string -> option Z.

(** The formatting never touches the text of the target run. *)
Lemma format_target_text t bold italic underline color size name r :
  format_target int16 t bold italic underline color size name = Some r ->
  text r = t.
Proof.
  unfold format_target. intros H.
  destruct bold, italic, underline, color as [c|], size as [n|], name as [m|];
    simpl in H;
    repeat match type of H with
           | context [Py.truthy ?x] => destruct (Py.truthy x)
           | context [?n =? 0] => destruct (n =? 0)
           | context [size_accepted ?x] => destruct (size_accepted x)
           end;
    simpl in H; inversion H; reflexivity.
Qed.

(** With the size left alone or acceptable, the target run is built. *)
Lemma format_target_total t bold italic underline color size name :
  match size with
  | Some n => n = 0 \/ size_accepted (Pt n) = true
  | None => True
  end ->
  is_Some (format_target int16 t bold italic underline color size name).
Proof.
  unfold format_target. intros H.
  destruct size as [n|]; simpl; [|eauto].
  destruct (n =? 0) eqn:E; [simpl; eauto|].
  destruct H as [H|H]; [apply Z.eqb_neq in E; contradiction|].
  rewrite H. simpl. eauto.
Qed.

(** What a call does once the file, the paragraph index and the
    positions have passed their checks. *)
Lemma format_text_checked f idx s e bold italic underline color size name p :
  file_exists f = true -> fst (file_writeable f) = true ->
  0 <= idx -> file_paragraphs f !! Z.to_nat idx = Some p ->
  0 <= s < e -> e <= Py.len (paragraph_text p) ->
  format_text int16 f idx s e bold italic underline color size name
  = match split_runs int16 p s e bold italic underline color size name with
    | Some p' =>
        (Formatted (Py.slice (paragraph_text p) (Some s) (Some e)) idx,
         <[Z.to_nat idx := p']> (file_paragraphs f))
    | None => (Failed, file_paragraphs f)
    end.
Proof.
  intros Hex Hwr Hidx Hp Hse He. unfold format_text.
  rewrite Hex, Hwr. simpl.
  assert (Hlt : idx < Z.of_nat (length (file_paragraphs f))).
  { apply lookup_lt_Some in Hp. lia. }
  replace (idx <? 0) with false by (symmetry; apply Z.ltb_ge; lia).
  replace (Z.of_nat (length (file_paragraphs f)) <=? idx) with false
    by (symmetry; apply Z.leb_gt; lia).
  simpl. rewrite Hp.
  replace (s <? 0) with false by (symmetry; apply Z.ltb_ge; lia).
  replace (Py.len (paragraph_text p) <? e) with false
    by (symmetry; apply Z.ltb_ge; lia).
  replace (e <=? s) with false by (symmetry; apply Z.leb_gt; lia).
  reflexivity.
Qed.

(** The paragraph a successful split leaves: the old runs emptied, then
    the runs before, target and after. *)
Lemma split_runs_shape p s e bold italic underline color size name rt :
  0 <= s -> e <= Py.len (paragraph_text p) ->
  format_target int16 (Py.slice (paragraph_text p) (Some s) (Some e))
    bold italic underline color size name = Some rt ->
  split_runs int16 p s e bold italic underline color size name
  = Some (mkParagraph
            (map run_clear (runs p)
             ++ (if s =? 0 then []
                 else [new_run (Py.slice (paragraph_text p) None (Some s))])
             ++ [rt]
             ++ (if e =? Py.len (paragraph_text p) then []
                 else [new_run (Py.slice (paragraph_text p) (Some e) None)]))).
Proof.
  intros Hs He Hrt. unfold split_runs. rewrite Hrt. simpl.
  destruct (Z.eqb_spec s 0) as [->|Hs0];
    destruct (Z.eqb_spec e (Py.len (paragraph_text p))) as [->|He0].
  - rewrite Z.ltb_irrefl. reflexivity.
  - replace (e <? Py.len (paragraph_text p)) with true
      by (symmetry; apply Z.ltb_lt; lia).
    simpl. now rewrite <- app_assoc.
  - replace (0 <? s) with true by (symmetry; apply Z.ltb_lt; lia).
    rewrite Z.ltb_irrefl. now rewrite <- !app_assoc.
  - replace (0 <? s) with true by (symmetry; apply Z.ltb_lt; lia).
    replace (e <? Py.len (paragraph_text p)) with true
      by (symmetry; apply Z.ltb_lt; lia).
    now rewrite <- !app_assoc.
Qed.

(** C1 (as amended).  On a valid range the call keeps the paragraph's old
    runs, emptied, and appends the run before the range (unless the range
    starts at 0), the formatted target run, and the run after the range
    (unless the range ends the text): at most three new runs.  On the text
    "Hello World" with bold set, positions 0..5 append "Hello" (bold) and
    " World" (plain), and positions 6..11 append "Hello " (plain) and
    "World" (bold). *)
Theorem format_text_appends_runs
    f idx s e bold italic underline color size name p rt :
  file_exists f = true -> fst (file_writeable f) = true ->
  0 <= idx -> file_paragraphs f !! Z.to_nat idx = Some p ->
  0 <= s < e -> e <= Py.len (paragraph_text p) ->
  format_target int16 (Py.slice (paragraph_text p) (Some s) (Some e))
    bold italic underline color size name = Some rt ->
  let text := paragraph_text p in
  let before := if s =? 0 then [] else [new_run (Py.slice text None (Some s))] in
  let after := if e =? Py.len text then []
               else [new_run (Py.slice text (Some e) None)] in
  format_text int16 f idx s e bold italic underline color size name
  = (Formatted (Py.slice text (Some s) (Some e)) idx,
     <[Z.to_nat idx :=
         mkParagraph (map run_clear (runs p) ++ before ++ [rt] ++ after)]>
       (file_paragraphs f))
  /\ (length (before ++ [rt] ++ after) <= 3)%nat
  /\ (text = "Hello World" -> bold = Some true -> italic = None ->
      underline = None -> color = None -> size = None -> name = None ->
      (s = 0 -> e = 5 ->
       before ++ [rt] ++ after = [set_bold true (new_run "Hello"); new_run " World"])
      /\ (s = 6 -> e = 11 ->
          before ++ [rt] ++ after
          = [new_run "Hello "; set_bold true (new_run "World")])).
Proof.
  intros Hex Hwr Hidx Hp Hse He Hrt text before after.
  split; [|split].
  - rewrite (format_text_checked f idx s e bold italic underline color size name p)
      by assumption.
    rewrite (split_runs_shape p s e bold italic underline color size name rt)
      by (first [lia | assumption]).
    reflexivity.
  - subst before after.
    destruct (s =? 0), (e =? Py.len text); simpl; lia.
  - intros Ht -> -> -> -> -> ->.
    subst before after text. rewrite Ht in *.
    split; intros -> ->; vm_compute in Hrt; inversion Hrt; reflexivity.
Qed.

(** C5.  When the positions violate 0 <= start_pos < end_pos <= len(text),
    the call answers with an error and the document's paragraphs, run texts
    and run formatting included, are what they were; with the file present
    and writeable the error is the one about the text positions. *)
Theorem format_text_invalid_positions
    f idx s e bold italic underline color size name p :
  0 <= idx -> file_paragraphs f !! Z.to_nat idx = Some p ->
  ~ (0 <= s < e /\ e <= Py.len (paragraph_text p)) ->
  let res := format_text int16 f idx s e bold italic underline color size name in
  is_error (fst res) = true
  /\ snd res = file_paragraphs f
  /\ (file_exists f = true -> fst (file_writeable f) = true ->
      fst res = InvalidTextPositions (Py.len (paragraph_text p))).
Proof.
  intros Hidx Hp Hbad res. subst res. unfold format_text.
  assert (Hlt : idx < Z.of_nat (length (file_paragraphs f))).
  { apply lookup_lt_Some in Hp. lia. }
  assert (Hchk : (s <? 0) || (Py.len (paragraph_text p) <? e) || (e <=? s) = true).
  { destruct (Z.ltb_spec s 0); [reflexivity|].
    destruct (Z.ltb_spec (Py.len (paragraph_text p)) e); [reflexivity|].
    destruct (Z.leb_spec e s); [reflexivity|]. exfalso. apply Hbad. lia. }
  destruct (file_exists f); simpl; [|repeat split; intros; discriminate].
  destruct (fst (file_writeable f)); simpl; [|repeat split; intros; discriminate].
  replace (idx <? 0) with false by (symmetry; apply Z.ltb_ge; lia).
  replace (Z.of_nat (length (file_paragraphs f)) <=? idx) with false
    by (symmetry; apply Z.leb_gt; lia).
  simpl. rewrite Hp, Hchk. simpl. repeat split; reflexivity.
Qed.

(** C10.  On a valid range (file present and writeable, size left alone or
    acceptable to the library) the call succeeds, and the paragraph it
    stores reads, run texts concatenated, exactly as the paragraph did
    before; the other paragraphs are untouched. *)
Theorem format_text_preserves_text
    f idx s e bold italic underline color size name p :
  file_exists f = true -> fst (file_writeable f) = true ->
  0 <= idx -> file_paragraphs f !! Z.to_nat idx = Some p ->
  0 <= s < e -> e <= Py.len (paragraph_text p) ->
  match size with
  | Some n => n = 0 \/ size_accepted (Pt n) = true
  | None => True
  end ->
  exists p',
    format_text int16 f idx s e bold italic underline color size name
    = (Formatted (Py.slice (paragraph_text p) (Some s) (Some e)) idx,
       <[Z.to_nat idx := p']> (file_paragraphs f))
    /\ paragraph_text p' = paragraph_text p.
Proof.
  intros Hex Hwr Hidx Hp Hse He Hsize.
  destruct (format_target_total
              (Py.slice (paragraph_text p) (Some s) (Some e))
              bold italic underline color size name Hsize) as [rt Hrt].
  eexists. split.
  - rewrite (format_text_checked f idx s e bold italic underline color size name p)
      by assumption.
    rewrite (split_runs_shape p s e bold italic underline color size name rt)
      by (first [lia | assumption]).
    reflexivity.
  - unfold paragraph_text at 1. simpl.
    rewrite !concat_text_app, concat_text_cleared.
    apply format_target_text in Hrt.
    change (concat_text (rt :: ?l)) with (text rt +:+ concat_text l).
    assert (Hb : concat_text
                   (if s =? 0 then []
                    else [new_run (Py.slice (paragraph_text p) None (Some s))])
                 = Py.slice (paragraph_text p) None (Some s)).
    { destruct (Z.eqb_spec s 0) as [->|_]; simpl.
      - now rewrite PyFacts.slice_empty_prefix.
      - apply PyFacts.append_empty_r. }
    assert (Ha : concat_text
                   (if e =? Py.len (paragraph_text p) then []
                    else [new_run (Py.slice (paragraph_text p) (Some e) None)])
                 = Py.slice (paragraph_text p) (Some e) None).
    { destruct (Z.eqb_spec e (Py.len (paragraph_text p))) as [->|_]; simpl.
      - now rewrite PyFacts.slice_empty_suffix.
      - apply PyFacts.append_empty_r. }
    rewrite Hb, Ha, Hrt.
    change (EmptyString +:+ ?x) with x.
    apply PyFacts.slice_partition; lia.
Qed.

End Formatter.

Import Examples.

(** C1, the claim as written fails: formatting positions 0..5 of the
    one-run paragraph "Hello World" leaves three runs, the emptied original
    run first, not two. *)
Lemma format_text_keeps_emptied_runs :
  snd (format_text Py.int16_digits hello_file 0 0 5
         (Some true) None None None None None)
  = [mkParagraph [new_run EmptyString; set_bold true (new_run "Hello"); new_run " World"]]
  /\ length [new_run EmptyString; set_bold true (new_run "Hello"); new_run " World"] <> 2%nat.
Proof. split; [vm_compute; reflexivity | discriminate]. Qed.

(** On the one-run paragraph "Hello World", positions 0..5, bold. *)
Lemma format_text_appends_runs_witness :
  format_text Py.int16_digits hello_file 0 0 5 (Some true) None None None None None
  = (Formatted "Hello" 0,
     [mkParagraph ([new_run EmptyString] ++ [set_bold true (new_run "Hello"); new_run " World"])]).
Proof.
  refine (proj1 (format_text_appends_runs Py.int16_digits hello_file 0 0 5
                   (Some true) None None None None None
                   (mkParagraph [new_run "Hello World"])
                   (set_bold true (new_run "Hello"))
                   eq_refl eq_refl _ eq_refl _ _ eq_refl)).
  - lia.
  - lia.
  - vm_compute. discriminate.
Defined.

(** On the same paragraph, positions 6..12: the end lies past the text. *)
Lemma format_text_invalid_positions_witness :
  let res := format_text Py.int16_digits hello_file 0 6 12
               (Some true) None None None None None in
  is_error (fst res) = true /\ snd res = file_paragraphs hello_file.
Proof.
  pose proof (format_text_invalid_positions Py.int16_digits hello_file 0 6 12
                (Some true) None None None None None
                (mkParagraph [new_run "Hello World"])) as H.
  simpl in H.
  assert (Hbad : ~ (0 <= 6 < 12 /\ 12 <= Py.len "Hello World")).
  { vm_compute. intros [_ H12]. apply H12. reflexivity. }
  destruct (H ltac:(lia) eq_refl Hbad) as (H1 & H2 & _).
  split; assumption.
Defined.

(** On the same paragraph, positions 6..11 with bold, a named colour and a
    12 point size. *)
Lemma format_text_preserves_text_witness :
  exists p',
    format_text Py.int16_digits hello_file 0 6 11
      (Some true) None None (Some "red") (Some 12) None
    = (Formatted "World" 0, [p'])
    /\ paragraph_text p' = "Hello World".
Proof.
  destruct (format_text_preserves_text Py.int16_digits hello_file 0 6 11
              (Some true) None None (Some "red") (Some 12) None
              (mkParagraph [new_run "Hello World"])
              eq_refl eq_refl ltac:(lia) eq_refl ltac:(lia)
              ltac:(vm_compute; discriminate)
              (or_intror eq_refl)) as [p' [H1 H2]].
  exists p'. split; [exact H1 | exact H2].
Defined.

End FormatToolsProofs.

(** ** Cell shading and borders *)

Module TablesProofs.
Import Docx Tables.

(** *** Counting children by tag *)

Lemma count_tag_nil (t : string) : count_tag t [] = 0%nat.
Proof. reflexivity. Qed.

Lemma count_tag_cons (t : string) (e : element) (cs : list element) :
  count_tag t (e :: cs)
  = ((if has_tag t e then 1 else 0) + count_tag t cs)%nat.
Proof.
  unfold count_tag. rewrite filter_cons.
  destruct (has_tag t e); case_decide; simpl; congruence.
Qed.

Lemma count_tag_app (t : string) (cs1 cs2 : list element) :
  count_tag t (cs1 ++ cs2) = (count_tag t cs1 + count_tag t cs2)%nat.
Proof.
  induction cs1 as [|e cs1 IH]; [reflexivity|].
  simpl. rewrite !count_tag_cons, IH. lia.
Qed.

Lemma count_tag_remove_first (t : string) (cs : list element) :
  count_tag t (remove_first t cs) = Nat.pred (count_tag t cs).
Proof.
  induction cs as [|e cs IH]; [reflexivity|].
  simpl. destruct (has_tag t e) eqn:E.
  - rewrite count_tag_cons, E. reflexivity.
  - rewrite !count_tag_cons, E, IH. reflexivity.
Qed.

Lemma count_tag_remove_first_le (t u : string) (cs : list element) :
  (count_tag u (remove_first t cs) <= count_tag u cs)%nat.
Proof.
  induction cs as [|e cs IH]; [reflexivity|].
  simpl. destruct (has_tag t e).
  - rewrite count_tag_cons. lia.
  - rewrite !count_tag_cons. lia.
Qed.

Lemma get_or_add_tcPr_some (cs : list element) (ps : list paragraph) :
  get_or_add_tcPr (mkCell (Some cs) ps) = cs.
Proof. reflexivity. Qed.

(** *** The attribute dict of a shading *)

Lemma pattern_color_attr (pattern_color : string) :
  (if negb (String.eqb pattern_color "auto") then pattern_color else "auto")
  = pattern_color.
Proof.
  destruct (String.eqb_spec pattern_color "auto") as [->|_]; reflexivity.
Qed.

Lemma len_6_truthy (s : string) : Py.len (normalize_fill_color s) = 6 -> Py.truthy s = true.
Proof. destruct s; [vm_compute; discriminate | reflexivity]. Qed.

Lemma is_hex6_len (s : string) : is_hex6 s = true -> Py.len s = 6.
Proof.
  unfold is_hex6, Py.len. intros H. apply andb_true_iff in H as [H _].
  apply Nat.eqb_eq in H. rewrite H. reflexivity.
Qed.

Lemma upper_hex_plain (c : ascii) : upper_hex_char c = true -> plain_char c = true.
Proof.
  unfold upper_hex_char, plain_char.
  generalize (nat_of_ascii c). intros n H.
  repeat match goal with
         | |- context [(?a <=? ?b)%nat] => destruct (Nat.leb_spec a b)
         | |- context [(?a =? ?b)%nat] => destruct (Nat.eqb_spec a b)
         | H : context [(?a <=? ?b)%nat] |- _ => destruct (Nat.leb_spec a b)
         end; simpl in *; try reflexivity; try discriminate; lia.
Qed.

Lemma is_hex6_plain (s : string) : is_hex6 s = true -> plain_text s = true.
Proof.
  unfold is_hex6, plain_text. intros H. apply andb_true_iff in H as [_ H].
  induction s as [|c s IH]; [reflexivity|].
  simpl in *. apply andb_true_iff in H as [Hc Hs].
  rewrite (upper_hex_plain c Hc). simpl. apply IH, Hs.
Qed.

(** With a text whose normal form has six characters the dict carries the
    fill, with any other text it does not. *)
Lemma shd_attrs_fill (c pattern pattern_color : string) :
  Py.len (normalize_fill_color c) = 6 ->
  shd_attrs (Some c) pattern pattern_color
  = [("w:val", pattern); ("w:color", pattern_color);
     ("w:fill", normalize_fill_color c)].
Proof.
  intros H. unfold shd_attrs.
  rewrite (len_6_truthy c H), H, pattern_color_attr. reflexivity.
Qed.

Lemma shd_attrs_no_fill (c pattern pattern_color : string) :
  Py.len (normalize_fill_color c) <> 6 ->
  shd_attrs (Some c) pattern pattern_color
  = [("w:val", pattern); ("w:color", pattern_color)].
Proof.
  intros H. unfold shd_attrs. rewrite pattern_color_attr.
  destruct (Py.truthy c); [|reflexivity].
  destruct (Z.eqb_spec (Py.len (normalize_fill_color c)) 6); [contradiction|].
  reflexivity.
Qed.

Section Shading.
Variable parse_shd : list (string * string) -> option (list (string * string)).
Hypothesis parse_shd_plain : parses_plain parse_shd.

Lemma parse_two (pattern pattern_color : string) :
  plain_text pattern = true -> plain_text pattern_color = true ->
  parse_shd [("w:val", pattern); ("w:color", pattern_color)]
  = Some [("w:val", pattern); ("w:color", pattern_color)].
Proof.
  intros Hp Hc. apply parse_shd_plain.
  - apply (bool_decide_unpack _). vm_compute. reflexivity.
  - simpl. rewrite Hp, Hc. reflexivity.
Qed.

Lemma parse_three (pattern pattern_color fill : string) :
  plain_text pattern = true -> plain_text pattern_color = true ->
  plain_text fill = true ->
  parse_shd [("w:val", pattern); ("w:color", pattern_color); ("w:fill", fill)]
  = Some [("w:val", pattern); ("w:color", pattern_color); ("w:fill", fill)].
Proof.
  intros Hp Hc Hf. apply parse_shd_plain.
  - apply (bool_decide_unpack _). vm_compute. reflexivity.
  - simpl. rewrite Hp, Hc, Hf. reflexivity.
Qed.

(** A call with a valid colour: the first shading found goes, the new one
    is appended, and the call reports success. *)
Lemma set_cell_shading_valid (c : cell) (fill pattern pattern_color : string) :
  valid_fill fill = true ->
  plain_text pattern = true -> plain_text pattern_color = true ->
  set_cell_shading parse_shd c (Some fill) pattern pattern_color
  = (mkCell (Some (remove_first "w:shd" (get_or_add_tcPr c)
                   ++ [shd_element [("w:val", pattern); ("w:color", pattern_color);
                                    ("w:fill", normalize_fill_color fill)]]))
            (paragraphs c),
     true).
Proof.
  intros Hv Hp Hc. unfold set_cell_shading.
  rewrite shd_attrs_fill by (apply is_hex6_len, Hv).
  rewrite parse_three by (first [assumption | apply is_hex6_plain, Hv]).
  reflexivity.
Qed.

(** A call with a colour text whose normal form is not six characters
    long: the fragment carries pattern and pattern colour only. *)
Lemma set_cell_shading_no_fill (c : cell) (fill pattern pattern_color : string) :
  Py.len (normalize_fill_color fill) <> 6 ->
  plain_text pattern = true -> plain_text pattern_color = true ->
  set_cell_shading parse_shd c (Some fill) pattern pattern_color
  = (mkCell (Some (remove_first "w:shd" (get_or_add_tcPr c)
                   ++ [shd_element [("w:val", pattern); ("w:color", pattern_color)]]))
            (paragraphs c),
     true).
Proof.
  intros Hn Hp Hc. unfold set_cell_shading.
  rewrite shd_attrs_no_fill by assumption.
  rewrite parse_two by assumption.
  reflexivity.
Qed.

End Shading.

(** Whatever the parser does, a call never adds to the number of shading
    fragments beyond one, nor to the border collections. *)
Lemma set_cell_shading_container_ok parse_shd c fill pattern pattern_color :
  container_ok (get_or_add_tcPr c) ->
  container_ok
    (get_or_add_tcPr (fst (set_cell_shading parse_shd c fill pattern pattern_color))).
Proof.
  intros [Hs Hb]. unfold set_cell_shading, container_ok.
  pose proof (count_tag_remove_first_le "w:shd" "w:tcBorders" (get_or_add_tcPr c)).
  destruct (parse_shd _) as [a|]; cbn [fst];
    rewrite !get_or_add_tcPr_some.
  - rewrite !count_tag_app, count_tag_remove_first.
    change (count_tag "w:shd" [shd_element a]) with 1%nat.
    change (count_tag "w:tcBorders" [shd_element a]) with 0%nat.
    lia.
  - rewrite count_tag_remove_first. lia.
Qed.

Lemma parse_plain_parses : parses_plain parse_plain.
Proof.
  intros a Hn Hp. unfold parse_plain.
  rewrite Hp, (bool_decide_eq_true_2 _ Hn). reflexivity.
Qed.




(** C4, at the failing input.  The text "GGGGGG" is not six hexadecimal
    digits, yet the call puts it into the fragment as the fill. *)
Theorem set_cell_shading_accepts_non_hex parse_shd c :
  parses_plain parse_shd ->
  valid_fill "GGGGGG" = false
  /\ set_cell_shading parse_shd c (Some "GGGGGG") "clear" "auto"
     = (mkCell (Some (remove_first "w:shd" (get_or_add_tcPr c)
                      ++ [shd_element [("w:val", "clear"); ("w:color", "auto");
                                       ("w:fill", "GGGGGG")]]))
               (paragraphs c),
        true).
Proof.
  intros Hparse. split; [reflexivity|].
  unfold set_cell_shading.
  change (shd_attrs (Some "GGGGGG") "clear" "auto")
    with [("w:val", "clear"); ("w:color", "auto"); ("w:fill", "GGGGGG")].
  rewrite (parse_three parse_shd Hparse) by reflexivity.
  reflexivity.
Qed.

(** On a blank cell, with the parser that accepts plain fragments. *)
Lemma set_cell_shading_accepts_non_hex_witness :
  set_cell_shading parse_plain Examples.blank_cell (Some "GGGGGG") "clear" "auto"
  = (mkCell (Some [shd_element [("w:val", "clear"); ("w:color", "auto");
                                ("w:fill", "GGGGGG")]]) [],
     true).
Proof.
  exact (proj2 (set_cell_shading_accepts_non_hex parse_plain Examples.blank_cell
                  parse_plain_parses)).
Defined.

(** C2, at the failing input.  The cell holds one shading fragment, so its
    container meets the invariant; [apply_table_style] with a shading matrix
    appends a second one, and the container no longer meets it. *)
Theorem apply_table_style_duplicates_shading parse_shd :
  parses_plain parse_shd ->
  container_ok (get_or_add_tcPr Examples.shaded_cell)
  /\ exists c',
      apply_table_style parse_shd Examples.shaded_table false None
        (Some [["FF0000"]])
      = (mkTable [c'] [[0%nat]], true)
      /\ count_tag "w:shd" (get_or_add_tcPr c') = 2%nat
      /\ ~ container_ok (get_or_add_tcPr c').
Proof.
  intros Hparse. split.
  - split; vm_compute; lia.
  - unfold apply_table_style. cbn [Examples.shaded_table cells rows].
    cbn [shade_matrix shade_matrix_row lookup list_lookup].
    rewrite (Hparse [("w:fill", "FF0000")]).
    + eexists. split; [reflexivity|]. split.
      * reflexivity.
      * intros [H _]. vm_compute in H. lia.
    + apply (bool_decide_unpack _). vm_compute. reflexivity.
    + reflexivity.
Qed.

(** With the parser that accepts plain fragments. *)
Lemma apply_table_style_duplicates_shading_witness :
  exists c',
    apply_table_style parse_plain Examples.shaded_table false None
      (Some [["FF0000"]])
    = (mkTable [c'] [[0%nat]], true)
    /\ count_tag "w:shd" (get_or_add_tcPr c') = 2%nat.
Proof.
  destruct (proj2 (apply_table_style_duplicates_shading parse_plain
                     parse_plain_parses)) as [c' [H1 [H2 _]]].
  exists c'. split; [exact H1 | exact H2].
Defined.

(** C7.  With the row index outside [0, R) or the column index outside
    [0, C(row)), the call returns [False] and the table is what it was;
    with both in range it is the call of [set_cell_shading] on the cell at
    that position, whose result it returns. *)
Theorem set_cell_shading_by_position_bounds
    parse_shd t row_index col_index fill_color pattern :
  table_ok t ->
  let in_range :=
    0 <= row_index < Z.of_nat (length (rows t))
    /\ 0 <= col_index < Z.of_nat (length (row_cells t row_index)) in
  (~ in_range ->
   set_cell_shading_by_position parse_shd t row_index col_index fill_color pattern
   = (t, false))
  /\ (in_range ->
      exists id c,
        row_cells t row_index !! Z.to_nat col_index = Some id
        /\ cells t !! id = Some c
        /\ set_cell_shading_by_position parse_shd t row_index col_index
             fill_color pattern
           = (mkTable
                (<[id := fst (set_cell_shading parse_shd c fill_color pattern "auto")]>
                   (cells t))
                (rows t),
              snd (set_cell_shading parse_shd c fill_color pattern "auto"))).
Proof.
  intros Hok in_range. subst in_range. unfold set_cell_shading_by_position.
  split.
  - intros Hout.
    destruct (Z.leb_spec 0 row_index); simpl; [|reflexivity].
    destruct (Z.ltb_spec row_index (Z.of_nat (length (rows t)))); simpl;
      [|reflexivity].
    destruct (Z.leb_spec 0 col_index); simpl; [|reflexivity].
    destruct (Z.ltb_spec col_index (Z.of_nat (length (row_cells t row_index))));
      simpl; [|reflexivity].
    exfalso. apply Hout. lia.
  - intros [Hr Hc].
    destruct (lookup_lt_is_Some_2 (row_cells t row_index) (Z.to_nat col_index))
      as [id Hid]; [lia|].
    assert (Hrow : rows t !! Z.to_nat row_index = Some (row_cells t row_index)).
    { unfold row_cells.
      destruct (lookup_lt_is_Some_2 (rows t) (Z.to_nat row_index)) as [row Hrow];
        [lia|].
      rewrite Hrow. reflexivity. }
    destruct (lookup_lt_is_Some_2 (cells t) id) as [c Hcell].
    { apply (Hok (row_cells t row_index) id).
      - apply list_elem_of_lookup. eauto.
      - apply list_elem_of_lookup. eauto. }
    exists id, c. split; [exact Hid|]. split; [exact Hcell|].
    replace (0 <=? row_index) with true by (symmetry; apply Z.leb_le; lia).
    replace (row_index <? Z.of_nat (length (rows t))) with true
      by (symmetry; apply Z.ltb_lt; lia).
    replace (0 <=? col_index) with true by (symmetry; apply Z.leb_le; lia).
    replace (col_index <? Z.of_nat (length (row_cells t row_index))) with true
      by (symmetry; apply Z.ltb_lt; lia).
    simpl. rewrite Hid, Hcell.
    destruct (set_cell_shading parse_shd c fill_color pattern "auto"). reflexivity.
Qed.

(** *** Loops over the cells of a row *)

(** A loop that applies [f] to the cell behind each handle of a row applies
    it to a given cell once per occurrence of its handle. *)
Lemma alter_all_lookup {A : Type} (f : A -> A) (row : list nat)
    (store : list A) (id : nat) :
  exists k,
    (id ∈ row -> (1 <= k)%nat) /\ (id ∉ row -> k = 0%nat)
    /\ foldl (fun st i => alter f i st) store row !! id
       = Nat.iter k f <$> store !! id.
Proof.
  revert store. induction row as [|a row IH]; intros store.
  - exists 0%nat. repeat split.
    + intros H. inversion H.
    + simpl. now destruct (store !! id).
  - destruct (IH (alter f a store)) as (k & Hin & Hout & Hk).
    destruct (decide (a = id)) as [->|Hne].
    + exists (S k). repeat split.
      * intros _. lia.
      * intros H. exfalso. apply H. apply list_elem_of_here.
      * cbn [foldl]. rewrite Hk, list_lookup_alter_eq.
        destruct (store !! id) as [x|]; [|reflexivity].
        change (Some (Nat.iter k f (f x)) = Some (Nat.iter (S k) f x)).
        now rewrite Nat.iter_succ_r.
    + exists k. repeat split.
      * intros H. apply Hin. apply elem_of_cons in H as [H|H]; [congruence|exact H].
      * intros H. apply Hout. intros H'. apply H. now apply list_elem_of_further.
      * cbn [foldl]. rewrite Hk, list_lookup_alter_ne by exact Hne. reflexivity.
Qed.


(** *** One shading call, seen from the cell *)

Lemma set_cell_shading_paragraphs parse_shd c fill pattern pattern_color :
  paragraphs (fst (set_cell_shading parse_shd c fill pattern pattern_color))
  = paragraphs c.
Proof. unfold set_cell_shading. now destruct (parse_shd _). Qed.

Lemma set_cell_shading_bounded parse_shd c0 c fill pattern pattern_color :
  shading_bounded c0 c ->
  shading_bounded c0 (fst (set_cell_shading parse_shd c fill pattern pattern_color)).
Proof.
  intros H H0. specialize (H H0). unfold set_cell_shading.
  destruct (parse_shd _) as [a|]; cbn [fst]; rewrite get_or_add_tcPr_some.
  - rewrite count_tag_app, count_tag_remove_first.
    change (count_tag "w:shd" [shd_element a]) with 1%nat. lia.
  - rewrite count_tag_remove_first. lia.
Qed.

Lemma shading_is_bounded fill c0 c : shading_is fill c0 c -> shading_bounded c0 c.
Proof. intros [_ H] H0. rewrite (H H0). lia. Qed.

Section Rows.
Variable parse_shd : list (string * string) -> option (list (string * string)).
Hypothesis parse_shd_plain : parses_plain parse_shd.

Lemma set_cell_shading_is (fill : string) (c0 c : cell) :
  valid_fill fill = true -> shading_bounded c0 c ->
  shading_is fill c0 (fst (set_cell_shading parse_shd c (Some fill) "clear" "auto")).
Proof.
  intros Hv Hb.
  rewrite (set_cell_shading_valid parse_shd parse_shd_plain c fill "clear" "auto")
    by (first [assumption | reflexivity]).
  cbn [fst]. unfold shading_is. rewrite get_or_add_tcPr_some. split.
  - apply last_snoc.
  - intros H0. specialize (Hb H0).
    rewrite count_tag_app, count_tag_remove_first.
    change (count_tag "w:shd" [_]) with 1%nat. lia.
Qed.







End Rows.




(** On the two-by-two table, row index 2 is out of range. *)
Lemma set_cell_shading_by_position_bounds_witness :
  set_cell_shading_by_position parse_plain Examples.grid_table 2 0
    (Some "FF0000") "clear"
  = (Examples.grid_table, false).
Proof.
  assert (Hok : table_ok Examples.grid_table).
  { intros row id Hrow Hid. simpl.
    unfold Examples.grid_table in Hrow. simpl in Hrow.
    repeat (apply elem_of_cons in Hrow as [->|Hrow];
            [repeat (apply elem_of_cons in Hid as [->|Hid]; [lia|]); inversion Hid|]).
    inversion Hrow. }
  apply (proj1 (set_cell_shading_by_position_bounds parse_plain Examples.grid_table
                  2 0 (Some "FF0000") "clear" Hok)).
  simpl. lia.
Defined.

(** *** Border edges *)

Lemma find_first_snoc_new (t : string) (cs : list element) (e : element) :
  find_first t cs = None -> has_tag t e = true ->
  find_first t (cs ++ [e]) = Some e.
Proof.
  intros Hcs He. induction cs as [|x cs IH]; simpl in *.
  - now rewrite He.
  - destruct (has_tag t x); [discriminate | apply IH, Hcs].
Qed.

Lemma append_in_first_found (t : string) (e : element) (cs : list element) :
  match find_first t cs with
  | Some b =>
      exists cs', append_in_first t e cs = Some cs'
                  /\ find_first t cs'
                     = Some (Elem (tag b) (attrib b) (children b ++ [e]))
  | None => append_in_first t e cs = None
  end.
Proof.
  induction cs as [|x cs IH]; simpl; [reflexivity|].
  destruct (has_tag t x) eqn:E.
  - eexists. split; [reflexivity|]. simpl.
    unfold has_tag in *. simpl. now rewrite E.
  - destruct (find_first t cs) as [b|].
    + destruct IH as (cs' & -> & Hf). eexists. split; [reflexivity|].
      simpl. now rewrite E.
    + now rewrite IH.
Qed.

(** Appending an edge adds one to the count of its own name and leaves the
    counts of the other names alone. *)
Lemma append_edge_count (key : string) (e : element) (cs : list element) :
  edge_count key (append_edge e cs)
  = (edge_count key cs + (if has_tag ("w:" +:+ key) e then 1 else 0))%nat.
Proof.
  unfold edge_count, append_edge.
  pose proof (append_in_first_found "w:tcBorders" e cs) as H.
  destruct (find_first "w:tcBorders" cs) as [b|] eqn:Hb.
  - destruct H as (cs' & -> & ->). cbn [children].
    rewrite count_tag_app, count_tag_cons, count_tag_nil. lia.
  - rewrite H,
      (find_first_snoc_new "w:tcBorders" cs (Elem "w:tcBorders" [] [e]) Hb eq_refl).
    cbn [children]. rewrite count_tag_cons, count_tag_nil. lia.
Qed.

Lemma border_element_tag (kw : kwargs) (key : string) :
  text_valued kw = true ->
  exists a, border_element kw key = Some (Elem ("w:" +:+ key) a []).
Proof.
  unfold text_valued, border_element, kw_text. simpl. intros H.
  repeat (apply andb_true_iff in H as [? H]).
  destruct (Py.get "val" kw) as [[|]|]; try discriminate;
    destruct (Py.get "sz" kw) as [[|]|]; try discriminate;
    destruct (Py.get "space" kw) as [[|]|]; try discriminate;
    destruct (Py.get "color" kw) as [[|]|]; try discriminate;
    simpl; eauto.
Qed.

Lemma edge_tag_eqb (key key' : string) :
  has_tag ("w:" +:+ key) (Elem ("w:" +:+ key') [] []) = String.eqb key' key.
Proof. reflexivity. Qed.

(** The loop returns, and adds to the count of [key] one edge per
    occurrence of [key] among the keys it walks. *)
Lemma border_loop_count (kw items : kwargs) (cs : list element) (key : string) :
  text_valued kw = true -> is_edge_key key = true ->
  exists cs',
    border_loop kw items cs = (cs', true)
    /\ edge_count key cs'
       = (edge_count key cs
          + length (filter (fun k => k = key) (map fst items)))%nat.
Proof.
  intros Htext Hkey. revert cs.
  induction items as [|[k v] items IH]; intros cs.
  - exists cs. split; [reflexivity|]. simpl. lia.
  - cbn [border_loop map fst]. rewrite filter_cons.
    destruct (is_edge_key k) eqn:Ek.
    + destruct (border_element_tag kw k Htext) as [a ->].
      destruct (IH (append_edge (Elem ("w:" +:+ k) a []) cs)) as (cs' & -> & Hc).
      exists cs'. split; [reflexivity|].
      rewrite Hc, append_edge_count.
      change (has_tag ("w:" +:+ key) (Elem ("w:" +:+ k) a []))
        with (String.eqb k key).
      destruct (String.eqb_spec k key); case_decide; simpl; try congruence; lia.
    + destruct (IH cs) as (cs' & -> & Hc).
      exists cs'. split; [reflexivity|].
      rewrite Hc. case_decide; [|reflexivity].
      subst k. congruence.
Qed.

Lemma NoDup_filter_one (key : string) (ks : list string) :
  NoDup ks -> key ∈ ks -> length (filter (fun k => k = key) ks) = 1%nat.
Proof.
  intros Hnd Hin. induction Hnd as [|k ks Hk Hnd IH]; [inversion Hin|].
  rewrite filter_cons. apply elem_of_cons in Hin as [->|Hin].
  - case_decide; [|congruence]. simpl.
    assert (Hnil : filter (fun k' => k' = k) ks = []).
    { clear -Hk. induction ks as [|x ks IH]; [reflexivity|].
      rewrite filter_cons. apply not_elem_of_cons in Hk as [Hne Hk].
      case_decide; [congruence | apply IH, Hk]. }
    now rewrite Hnil.
  - case_decide; [subst; contradiction | apply IH, Hin].
Qed.

(** One call adds exactly one edge of each requested name. *)
Lemma set_cell_border_count (c : cell) (kw : kwargs) (key : string) :
  NoDup (map fst kw) -> text_valued kw = true ->
  is_edge_key key = true -> key ∈ map fst kw ->
  snd (set_cell_border c kw) = true
  /\ edge_count key (get_or_add_tcPr (fst (set_cell_border c kw)))
     = S (edge_count key (get_or_add_tcPr c)).
Proof.
  intros Hnd Htext Hkey Hin. unfold set_cell_border.
  destruct (border_loop_count kw kw (get_or_add_tcPr c) key Htext Hkey)
    as (cs' & -> & Hc).
  cbn [fst snd]. rewrite get_or_add_tcPr_some, Hc, NoDup_filter_one by assumption.
  split; [reflexivity | lia].
Qed.

(** C8.  Each call appends a new edge definition for every requested edge,
    whatever the border collection already holds: after n calls on a cell
    the collection holds n more edges of each requested name than before,
    so n of them on a cell that had none; every call returns. *)
Theorem set_cell_border_accumulates (c : cell) (kw : kwargs) (key : string) (n : nat) :
  NoDup (map fst kw) -> text_valued kw = true ->
  is_edge_key key = true -> key ∈ map fst kw ->
  let again := Nat.iter n (fun c => fst (set_cell_border c kw)) c in
  edge_count key (get_or_add_tcPr again)
  = (edge_count key (get_or_add_tcPr c) + n)%nat
  /\ (edge_count key (get_or_add_tcPr c) = 0%nat ->
      edge_count key (get_or_add_tcPr again) = n)
  /\ snd (set_cell_border again kw) = true.
Proof.
  intros Hnd Htext Hkey Hin again.
  assert (Hcount : edge_count key (get_or_add_tcPr again)
                   = (edge_count key (get_or_add_tcPr c) + n)%nat).
  { subst again. induction n as [|n IH]; [simpl; lia|].
    rewrite Nat.iter_succ.
    rewrite (proj2 (set_cell_border_count _ kw key Hnd Htext Hkey Hin)), IH. lia. }
  split; [exact Hcount|]. split.
  - intros H0. rewrite Hcount, H0. reflexivity.
  - apply (set_cell_border_count again kw key Hnd Htext Hkey Hin).
Qed.

(** Three calls with the single-border arguments on a blank cell leave
    three top edges. *)
Lemma set_cell_border_accumulates_witness :
  edge_count "top"
    (get_or_add_tcPr
       (Nat.iter 3 (fun c => fst (set_cell_border c Examples.single_borders))
          Examples.blank_cell))
  = 3%nat.
Proof.
  refine (proj1 (proj2 (set_cell_border_accumulates Examples.blank_cell
                          Examples.single_borders "top" 3 _ eq_refl eq_refl _))
                eq_refl).
  - apply (bool_decide_unpack _). vm_compute. reflexivity.
  - apply list_elem_of_here.
Defined.

(** *** Header highlighting *)

Lemma set_bold_bold (b : bool) (r : run) : bold (set_bold b r) = Some b.
Proof. reflexivity. Qed.

Lemma set_bold_keeps (b : bool) (r : run) :
  text (set_bold b r) = text r /\ font_color (set_bold b r) = font_color r.
Proof. split; reflexivity. Qed.

Lemma set_bold_idem (b : bool) (r : run) : set_bold b (set_bold b r) = set_bold b r.
Proof. reflexivity. Qed.

Lemma embolden_cell_idem (c : cell) :
  paragraphs (embolden_cell (embolden_cell c)) = paragraphs (embolden_cell c).
Proof.
  unfold embolden_cell. cbn [paragraphs]. rewrite map_map.
  apply map_ext. intros p. cbn [runs]. rewrite map_map. reflexivity.
Qed.

Lemma alter_as_insert {A : Type} (f : A -> A) (l : list A) (i : nat) (x : A) :
  l !! i = Some x -> <[i := f x]> l = alter f i l.
Proof.
  revert i. induction l as [|y l IH]; intros [|i] H; try discriminate.
  - simpl in H. inversion H. reflexivity.
  - simpl in H. cbn. f_equal. apply IH, H.
Qed.

Lemma alter_absent {A : Type} (f : A -> A) (l : list A) (i : nat) :
  l !! i = None -> alter f i l = l.
Proof.
  revert i. induction l as [|y l IH]; intros [|i] H; try discriminate;
    try reflexivity.
  simpl in H. cbn. f_equal. apply IH, H.
Qed.

Section Header.
Variable parse_shd : list (string * string) -> option (list (string * string)).
Variable int16 : string -> option Z.
Hypothesis parse_shd_plain : parses_plain parse_shd.

(** A run under a text colour that yields no colour: bold is set, nothing
    else changes, and the text colour carried on still yields none. *)
Lemma highlight_run_unparsed (text_color : string) (r : run) :
  unparsed_text_color int16 text_color ->
  exists text_color',
    highlight_run int16 text_color r = (text_color', set_bold true r)
    /\ unparsed_text_color int16 text_color'.
Proof.
  intros H. unfold highlight_run.
  destruct (Py.truthy text_color && negb (String.eqb text_color "auto")) eqn:G.
  - destruct H as [->|[->|H]]; [discriminate G | discriminate G |].
    rewrite H. eexists. split; [reflexivity|].
    right; right. now rewrite PyFacts.lstrip_idem.
  - eexists. split; [reflexivity | exact H].
Qed.

Lemma highlight_runs_unparsed (text_color : string) (rs : list run) :
  unparsed_text_color int16 text_color ->
  exists text_color',
    map_accum (highlight_run int16) text_color rs
    = (text_color', map (set_bold true) rs)
    /\ unparsed_text_color int16 text_color'.
Proof.
  revert text_color. induction rs as [|r rs IH]; intros text_color H.
  - eexists. split; [reflexivity | exact H].
  - cbn [map_accum map].
    destruct (highlight_run_unparsed text_color r H) as (tc1 & -> & H1).
    destruct (IH tc1 H1) as (tc2 & -> & H2).
    eexists. split; [reflexivity | exact H2].
Qed.

Lemma highlight_paragraphs_unparsed (text_color : string) (ps : list paragraph) :
  unparsed_text_color int16 text_color ->
  exists text_color',
    map_accum (highlight_paragraph int16) text_color ps
    = (text_color', map (fun p => mkParagraph (map (set_bold true) (runs p))) ps)
    /\ unparsed_text_color int16 text_color'.
Proof.
  revert text_color. induction ps as [|p ps IH]; intros text_color H.
  - eexists. split; [reflexivity | exact H].
  - cbn [map_accum map]. unfold highlight_paragraph at 1.
    destruct (highlight_runs_unparsed text_color (runs p) H) as (tc1 & -> & H1).
    destruct (IH tc1 H1) as (tc2 & -> & H2).
    eexists. split; [reflexivity | exact H2].
Qed.

Lemma highlight_cell_unparsed (header_color text_color : string) (c : cell) :
  unparsed_text_color int16 text_color ->
  exists text_color',
    highlight_cell parse_shd int16 header_color text_color c
    = (text_color',
       embolden_cell (fst (set_cell_shading parse_shd c (Some header_color)
                             "clear" "auto")))
    /\ unparsed_text_color int16 text_color'.
Proof.
  intros H. unfold highlight_cell.
  destruct (highlight_paragraphs_unparsed text_color
              (paragraphs (fst (set_cell_shading parse_shd c (Some header_color)
                                  "clear" "auto"))) H) as (tc1 & -> & H1).
  eexists. split; [reflexivity | exact H1].
Qed.

(** Under such a text colour the loop over the header row is a loop of one
    and the same cell update. *)
Lemma highlight_cells_unparsed (header_color text_color : string)
    (row : list nat) (store : list cell) :
  unparsed_text_color int16 text_color ->
  highlight_cells parse_shd int16 header_color text_color row store
  = foldl (fun st id =>
             alter (fun c => embolden_cell
                               (fst (set_cell_shading parse_shd c (Some header_color)
                                       "clear" "auto")))
                   id st)
          store row.
Proof.
  revert text_color store. induction row as [|id row IH]; intros text_color store H.
  - reflexivity.
  - cbn [highlight_cells foldl].
    destruct (store !! id) as [c|] eqn:Hc.
    + destruct (highlight_cell_unparsed header_color text_color c H)
        as (tc1 & -> & H1).
      rewrite (IH tc1 _ H1).
      now rewrite <- (alter_as_insert
                        (fun c => embolden_cell
                                    (fst (set_cell_shading parse_shd c
                                            (Some header_color) "clear" "auto")))
                        store id c Hc).
    + rewrite (IH text_color _ H). now rewrite alter_absent.
Qed.

(** Repeating the cell update: shaded, and the runs of the original cell
    made bold. *)
Lemma iter_highlight (header_color : string) (k : nat) (c0 : cell) :
  valid_fill header_color = true -> (1 <= k)%nat ->
  let c := Nat.iter k (fun c => embolden_cell
                                  (fst (set_cell_shading parse_shd c
                                          (Some header_color) "clear" "auto")))
                    c0 in
  shading_is header_color c0 c
  /\ paragraphs c = paragraphs (embolden_cell c0).
Proof.
  intros Hv Hk. destruct k as [|k]; [lia|]. clear Hk.
  induction k as [|k IH].
  - cbn [Nat.iter nat_rect]. split.
    + apply (set_cell_shading_is parse_shd parse_shd_plain header_color c0 c0 Hv).
      intros H; exact H.
    + unfold embolden_cell. cbn [paragraphs].
      now rewrite set_cell_shading_paragraphs.
  - rewrite Nat.iter_succ. destruct IH as [Hs Hp]. cbv zeta. split.
    + apply (set_cell_shading_is parse_shd parse_shd_plain header_color c0 _ Hv).
      apply (shading_is_bounded header_color). exact Hs.
    + unfold embolden_cell at 1. cbn [paragraphs].
      rewrite set_cell_shading_paragraphs, Hp.
      apply embolden_cell_idem.
Qed.

(** Where the code reads no colour from the text colour (the hypothesis is
    the failure of the code's own reading, which is narrower than "not a
    hex colour"), and the header colour is valid, every cell of row 0 ends
    shaded with the header colour, every run in it is the run it was with
    bold set (text and font colour as before), and the call returns
    [True]. *)
Theorem highlight_header_row_unparsed_text_color
    (t : table) (header_color text_color : string)
    (row0 : list nat) (rest : list (list nat)) (id : nat) (c0 : cell) :
  valid_fill header_color = true ->
  unparsed_text_color int16 text_color ->
  rows t = row0 :: rest -> id ∈ row0 -> cells t !! id = Some c0 ->
  let '(t', ok) := highlight_header_row parse_shd int16 t header_color text_color in
  ok = true
  /\ exists c, cells t' !! id = Some c
              /\ shading_is header_color c0 c
              /\ paragraphs c
                 = map (fun p => mkParagraph (map (set_bold true) (runs p)))
                       (paragraphs c0).
Proof.
  intros Hv Htc Hrows Hin Hc. unfold highlight_header_row. rewrite Hrows.
  split; [reflexivity|]. cbn [cells].
  rewrite (highlight_cells_unparsed header_color text_color row0 (cells t) Htc).
  destruct (alter_all_lookup
              (fun c => embolden_cell
                          (fst (set_cell_shading parse_shd c (Some header_color)
                                  "clear" "auto")))
              row0 (cells t) id) as (k & Hk1 & _ & Hk).
  rewrite Hc in Hk. eexists. split; [exact Hk|].
  apply (iter_highlight header_color k c0 Hv (Hk1 Hin)).
Qed.

End Header.

(** On the two-by-two table with the text colour "white", which the hex
    reading fails on. *)
Lemma highlight_header_row_unparsed_text_color_witness :
  let '(t', ok) := highlight_header_row parse_plain Py.int16_digits
                     Examples.grid_table "4472C4" "white" in
  ok = true
  /\ exists c, cells t' !! 1%nat = Some c
              /\ shading_is "4472C4" Examples.shaded_cell c
              /\ paragraphs c
                 = map (fun p => mkParagraph (map (set_bold true) (runs p)))
                       (paragraphs Examples.shaded_cell).
Proof.
  apply (highlight_header_row_unparsed_text_color parse_plain Py.int16_digits
           parse_plain_parses Examples.grid_table "4472C4" "white"
           [0%nat; 1%nat] [[2%nat; 3%nat]] 1%nat Examples.shaded_cell).
  - reflexivity.
  - right; right. reflexivity.
  - reflexivity.
  - apply list_elem_of_further, list_elem_of_here.
  - reflexivity.
Defined.

(** *** The container invariant under the operations built on
    [set_cell_shading] and under [set_cell_border] *)

Lemma find_first_none_count (t : string) (cs : list element) :
  find_first t cs = None <-> count_tag t cs = 0%nat.
Proof.
  induction cs as [|x cs IH]; simpl; [split; reflexivity|].
  rewrite count_tag_cons. destruct (has_tag t x).
  - split; [discriminate | intros H; lia].
  - exact IH.
Qed.

Lemma append_in_first_count (t u : string) (e : element) (cs cs' : list element) :
  append_in_first t e cs = Some cs' -> count_tag u cs' = count_tag u cs.
Proof.
  revert cs'. induction cs as [|x cs IH]; intros cs' H; simpl in H; [discriminate|].
  destruct (has_tag t x) eqn:E.
  - inversion H. subst cs'. rewrite !count_tag_cons.
    unfold has_tag. reflexivity.
  - destruct (append_in_first t e cs) as [cs1|]; [|discriminate].
    inversion H. subst cs'. rewrite !count_tag_cons, (IH cs1 eq_refl). reflexivity.
Qed.

Lemma append_edge_container_ok (e : element) (cs : list element) :
  container_ok cs -> container_ok (append_edge e cs).
Proof.
  intros [Hs Hb]. unfold append_edge, container_ok.
  pose proof (append_in_first_found "w:tcBorders" e cs) as H.
  destruct (find_first "w:tcBorders" cs) as [b|] eqn:Hf.
  - destruct H as (cs' & H & _). rewrite H.
    rewrite !(append_in_first_count "w:tcBorders" _ e cs cs' H). split; assumption.
  - rewrite H. apply find_first_none_count in Hf.
    rewrite !count_tag_app, Hf.
    change (count_tag "w:shd" [_]) with 0%nat.
    change (count_tag "w:tcBorders" [_]) with 1%nat. lia.
Qed.

Lemma border_loop_container_ok (kw items : kwargs) (cs : list element) :
  container_ok cs -> container_ok (fst (border_loop kw items cs)).
Proof.
  revert cs. induction items as [|[k v] items IH]; intros cs H; simpl; [exact H|].
  destruct (is_edge_key k); [|apply IH, H].
  destruct (border_element kw k); [|exact H].
  apply IH, append_edge_container_ok, H.
Qed.

Lemma set_cell_border_container_ok (c : cell) (kw : kwargs) :
  container_ok (get_or_add_tcPr c) ->
  container_ok (get_or_add_tcPr (fst (set_cell_border c kw))).
Proof.
  intros H. unfold set_cell_border.
  pose proof (border_loop_container_ok kw kw (get_or_add_tcPr c) H) as H'.
  destruct (border_loop kw kw (get_or_add_tcPr c)) as [cs ok]. exact H'.
Qed.

Lemma set_cell_shading_by_position_cells_ok
    parse_shd t row_index col_index fill_color pattern :
  cells_ok (cells t) ->
  cells_ok (cells (fst (set_cell_shading_by_position parse_shd t row_index col_index
                          fill_color pattern))).
Proof.
  intros H. unfold set_cell_shading_by_position.
  destruct (_ && _); [|exact H].
  destruct (row_cells t row_index !! Z.to_nat col_index) as [id|]; [|exact H].
  destruct (cells t !! id) as [c|] eqn:Hc; [|exact H].
  pose proof (set_cell_shading_container_ok parse_shd c fill_color pattern "auto"
                (Forall_lookup_1 _ _ _ _ H Hc)) as Hok.
  destruct (set_cell_shading parse_shd c fill_color pattern "auto") as [c' ok].
  apply Forall_insert; assumption.
Qed.

Lemma shade_row_cells_ok parse_shd fill_color row store :
  cells_ok store -> cells_ok (shade_row parse_shd fill_color row store).
Proof.
  unfold shade_row. revert store.
  induction row as [|id row IH]; intros store H; [exact H|].
  apply IH, Forall_alter; [exact H|].
  intros c _ Hc. apply set_cell_shading_container_ok, Hc.
Qed.

Lemma apply_alternating_row_shading_cells_ok parse_shd t color1 color2 :
  cells_ok (cells t) ->
  cells_ok (cells (fst (apply_alternating_row_shading parse_shd t color1 color2))).
Proof.
  unfold apply_alternating_row_shading. cbn [fst cells].
  generalize 0%nat (cells t). induction (rows t) as [|row rs IH]; intros i store H.
  - exact H.
  - apply IH, shade_row_cells_ok, H.
Qed.

Lemma highlight_cell_container parse_shd int16 header_color text_color c :
  get_or_add_tcPr (snd (highlight_cell parse_shd int16 header_color text_color c))
  = get_or_add_tcPr
      (fst (set_cell_shading parse_shd c (Some header_color) "clear" "auto")).
Proof.
  unfold highlight_cell.
  destruct (map_accum _ _ _) as [tc ps]. reflexivity.
Qed.

Lemma highlight_header_row_cells_ok parse_shd int16 t header_color text_color :
  cells_ok (cells t) ->
  cells_ok (cells (fst (highlight_header_row parse_shd int16 t header_color
                          text_color))).
Proof.
  intros H. unfold highlight_header_row.
  destruct (rows t) as [|row0 rest]; [exact H|]. cbn [fst cells].
  revert H. generalize text_color (cells t).
  induction row0 as [|id row IH]; intros tc store H; [exact H|].
  cbn [highlight_cells].
  destruct (store !! id) as [c|] eqn:Hc; [|apply IH, H].
  pose proof (highlight_cell_container parse_shd int16 header_color tc c) as Hk.
  destruct (highlight_cell parse_shd int16 header_color tc c) as [tc' c'].
  apply IH, Forall_insert; [exact H|].
  cbn [snd] in Hk. unfold cells_ok in H. rewrite Hk.
  apply set_cell_shading_container_ok.
  apply (Forall_lookup_1 _ _ _ _ H Hc).
Qed.

End TablesProofs.

(** ** Further properties of the cell operations *)

Module CellProofs.
Import Docx Tables TablesProofs.

(** *** Searching and removing by tag *)

Lemma has_tag_other (t u : string) (e : element) :
  t <> u -> has_tag t e = true -> has_tag u e = false.
Proof.
  unfold has_tag. intros Hne Ht. apply String.eqb_eq in Ht.
  apply String.eqb_neq. congruence.
Qed.

Lemma remove_first_absent (t : string) (cs : list element) :
  count_tag t cs = 0%nat -> remove_first t cs = cs.
Proof.
  induction cs as [|x cs IH]; [reflexivity|].
  rewrite count_tag_cons. simpl. destruct (has_tag t x); [discriminate|].
  intros H. now rewrite IH.
Qed.

Lemma remove_first_snoc (t : string) (pre : list element) (e : element) :
  count_tag t pre = 0%nat -> has_tag t e = true ->
  remove_first t (pre ++ [e]) = pre.
Proof.
  intros Hpre He. induction pre as [|x pre IH]; simpl.
  - now rewrite He.
  - rewrite count_tag_cons in Hpre.
    destruct (has_tag t x); [discriminate|]. now rewrite IH.
Qed.

Lemma filter_remove_first (t : string) (cs : list element) :
  filter (fun e => has_tag t e = false) (remove_first t cs)
  = filter (fun e => has_tag t e = false) cs.
Proof.
  induction cs as [|x cs IH]; [reflexivity|].
  simpl. destruct (has_tag t x) eqn:E.
  - rewrite filter_cons. case_decide; [congruence | reflexivity].
  - rewrite !filter_cons. case_decide; [now rewrite IH | congruence].
Qed.

Lemma find_first_remove_other (t u : string) (cs : list element) :
  t <> u -> find_first u (remove_first t cs) = find_first u cs.
Proof.
  intros Hne. induction cs as [|x cs IH]; [reflexivity|].
  simpl. destruct (has_tag t x) eqn:E.
  - now rewrite (has_tag_other t u x Hne E).
  - simpl. now rewrite IH.
Qed.

Lemma find_first_snoc_other (u : string) (cs : list element) (e : element) :
  has_tag u e = false -> find_first u (cs ++ [e]) = find_first u cs.
Proof.
  intros He. induction cs as [|x cs IH]; simpl.
  - now rewrite He.
  - now rewrite IH.
Qed.

Lemma find_first_app_found (t : string) (cs more : list element) (x : element) :
  find_first t cs = Some x -> find_first t (cs ++ more) = Some x.
Proof.
  induction cs as [|y cs IH]; simpl; [discriminate|].
  destruct (has_tag t y); [trivial | exact IH].
Qed.

Lemma find_first_some_count (t : string) (cs : list element) :
  (1 <= count_tag t cs)%nat -> exists x, find_first t cs = Some x.
Proof.
  induction cs as [|y cs IH]; [rewrite count_tag_nil; lia|].
  rewrite count_tag_cons. simpl. destruct (has_tag t y); [eauto|].
  exact IH.
Qed.

(** *** One shading call *)

(** X1.  Whatever its arguments and whether or not it succeeds,
    [set_cell_shading] changes nothing but shading fragments: the cell's
    paragraphs and, in order, every child of the container that is not a
    shading fragment are what they were, so every border edge count is
    too. *)
Theorem set_cell_shading_keeps_other_children
    parse_shd c fill_color pattern pattern_color :
  let c' := fst (set_cell_shading parse_shd c fill_color pattern pattern_color) in
  paragraphs c' = paragraphs c
  /\ filter (fun e => has_tag "w:shd" e = false) (get_or_add_tcPr c')
     = filter (fun e => has_tag "w:shd" e = false) (get_or_add_tcPr c)
  /\ forall key, edge_count key (get_or_add_tcPr c')
                 = edge_count key (get_or_add_tcPr c).
Proof.
  intros c'. subst c'. split; [apply set_cell_shading_paragraphs|].
  unfold set_cell_shading, edge_count.
  destruct (parse_shd _) as [a|]; cbn [fst]; rewrite get_or_add_tcPr_some.
  - split.
    + rewrite filter_app, filter_remove_first.
      rewrite filter_cons, filter_nil.
      case_decide as H; [discriminate H | apply app_nil_r].
    + intros key. rewrite find_first_snoc_other by reflexivity.
      rewrite find_first_remove_other by discriminate. reflexivity.
  - split.
    + apply filter_remove_first.
    + intros key. rewrite find_first_remove_other by discriminate. reflexivity.
Qed.

(** The container a call leaves, from the one it found holding at most one
    shading fragment. *)
Lemma set_cell_shading_from_one parse_shd c fill_color pattern pattern_color :
  (count_tag "w:shd" (get_or_add_tcPr c) <= 1)%nat ->
  count_tag "w:shd" (remove_first "w:shd" (get_or_add_tcPr c)) = 0%nat
  /\ remove_first "w:shd"
       (get_or_add_tcPr
          (fst (set_cell_shading parse_shd c fill_color pattern pattern_color)))
     = remove_first "w:shd" (get_or_add_tcPr c).
Proof.
  intros H.
  assert (H0 : count_tag "w:shd" (remove_first "w:shd" (get_or_add_tcPr c)) = 0%nat).
  { rewrite count_tag_remove_first. lia. }
  split; [exact H0|].
  unfold set_cell_shading.
  destruct (parse_shd _) as [a|]; cbn [fst]; rewrite get_or_add_tcPr_some.
  - apply remove_first_snoc; [exact H0 | reflexivity].
  - apply remove_first_absent, H0.
Qed.

(** X2.  On a cell holding at most one shading fragment the last call
    wins: shading it with one set of arguments and then with another leaves
    the cell, and returns the flag, that the second call alone would; so a
    repeated call changes nothing. *)
Theorem set_cell_shading_last_call_wins
    parse_shd c fill1 pattern1 pattern_color1 fill2 pattern2 pattern_color2 :
  (count_tag "w:shd" (get_or_add_tcPr c) <= 1)%nat ->
  set_cell_shading parse_shd
    (fst (set_cell_shading parse_shd c fill1 pattern1 pattern_color1))
    fill2 pattern2 pattern_color2
  = set_cell_shading parse_shd c fill2 pattern2 pattern_color2.
Proof.
  intros H.
  destruct (set_cell_shading_from_one parse_shd c fill1 pattern1 pattern_color1 H)
    as [_ Hrm].
  pose proof (set_cell_shading_paragraphs parse_shd c fill1 pattern1 pattern_color1)
    as Hp.
  unfold set_cell_shading at 1 3. rewrite Hrm, Hp. reflexivity.
Qed.

(** Shading a white cell red and then green is shading it green. *)
Lemma set_cell_shading_last_call_wins_witness :
  set_cell_shading parse_plain
    (fst (set_cell_shading parse_plain Examples.shaded_cell (Some "FF0000")
            "clear" "auto"))
    (Some "00FF00") "solid" "auto"
  = set_cell_shading parse_plain Examples.shaded_cell (Some "00FF00") "solid" "auto".
Proof.
  apply (set_cell_shading_last_call_wins parse_plain Examples.shaded_cell
           (Some "FF0000") "clear" "auto" (Some "00FF00") "solid" "auto").
  vm_compute. lia.
Defined.

(** X3.  The call does not clear up duplicates.  On a container holding two
    or more shading fragments a successful call leaves as many as there
    were, and the fragment a search finds afterwards is the second of the
    old ones, not the one just written, which sits last. *)
Theorem set_cell_shading_keeps_duplicates
    parse_shd c fill_color pattern pattern_color :
  (2 <= count_tag "w:shd" (get_or_add_tcPr c))%nat ->
  snd (set_cell_shading parse_shd c fill_color pattern pattern_color) = true ->
  let c' := fst (set_cell_shading parse_shd c fill_color pattern pattern_color) in
  count_tag "w:shd" (get_or_add_tcPr c') = count_tag "w:shd" (get_or_add_tcPr c)
  /\ exists old a,
      find_first "w:shd" (remove_first "w:shd" (get_or_add_tcPr c)) = Some old
      /\ find_first "w:shd" (get_or_add_tcPr c') = Some old
      /\ parse_shd (shd_attrs fill_color pattern pattern_color) = Some a
      /\ get_or_add_tcPr c'
         = remove_first "w:shd" (get_or_add_tcPr c) ++ [shd_element a].
Proof.
  intros H2 Hok c'. subst c'. revert Hok. unfold set_cell_shading.
  destruct (parse_shd _) as [a|]; cbn [fst snd]; [intros _ | discriminate].
  rewrite get_or_add_tcPr_some. split.
  - rewrite count_tag_app, count_tag_remove_first.
    change (count_tag "w:shd" [shd_element a]) with 1%nat. lia.
  - destruct (find_first_some_count "w:shd"
                (remove_first "w:shd" (get_or_add_tcPr c))) as [old Hold].
    { rewrite count_tag_remove_first. lia. }
    exists old, a. split; [exact Hold|]. split; [|split; reflexivity].
    apply find_first_app_found, Hold.
Qed.

(** X4.  A call that returns [False] is not a no-op: the first shading
    fragment the container held is gone and nothing was written in its
    place. *)
Theorem set_cell_shading_failure_strips
    parse_shd c fill_color pattern pattern_color :
  snd (set_cell_shading parse_shd c fill_color pattern pattern_color) = false ->
  let c' := fst (set_cell_shading parse_shd c fill_color pattern pattern_color) in
  tcPr c' = Some (remove_first "w:shd" (get_or_add_tcPr c))
  /\ count_tag "w:shd" (get_or_add_tcPr c')
     = Nat.pred (count_tag "w:shd" (get_or_add_tcPr c))
  /\ paragraphs c' = paragraphs c.
Proof.
  intros Hko c'. subst c'. revert Hko. unfold set_cell_shading.
  destruct (parse_shd _) as [a|]; cbn [fst snd]; [discriminate | intros _].
  rewrite get_or_add_tcPr_some. repeat split.
  apply count_tag_remove_first.
Qed.

(** On a cell with a red and a green fragment, shading it blue leaves the
    green one to be found. *)
Lemma set_cell_shading_keeps_duplicates_witness :
  find_first "w:shd"
    (get_or_add_tcPr
       (fst (set_cell_shading parse_plain Examples.twice_shaded_cell
               (Some "0000FF") "clear" "auto")))
  = Some (shd_element [("w:fill", "00FF00")]).
Proof.
  destruct (set_cell_shading_keeps_duplicates parse_plain Examples.twice_shaded_cell
              (Some "0000FF") "clear" "auto")
    as (_ & old & a & Hold & Hfound & _).
  - vm_compute. lia.
  - reflexivity.
  - rewrite Hfound, <- Hold. reflexivity.
Defined.

(** A pattern holding a less-than sign is not plain text; with the parser
    that accepts plain fragments only the call fails and the white shading
    is gone. *)
Lemma set_cell_shading_failure_strips_witness :
  tcPr (fst (set_cell_shading parse_plain Examples.shaded_cell (Some "FF0000")
               "<" "auto"))
  = Some [].
Proof.
  exact (proj1 (set_cell_shading_failure_strips parse_plain Examples.shaded_cell
                  (Some "FF0000") "<" "auto" eq_refl)).
Defined.

(** *** One border call *)

Lemma append_in_first_filter (t : string) (e : element) (cs cs' : list element) :
  append_in_first t e cs = Some cs' ->
  filter (fun x => has_tag t x = false) cs'
  = filter (fun x => has_tag t x = false) cs.
Proof.
  revert cs'. induction cs as [|x cs IH]; intros cs' H; simpl in H; [discriminate|].
  destruct (has_tag t x) eqn:E.
  - inversion H. subst cs'. rewrite !filter_cons.
    assert (E' : has_tag t (Elem (tag x) (attrib x) (children x ++ [e])) = true)
      by exact E.
    repeat case_decide; congruence.
  - destruct (append_in_first t e cs) as [cs1|]; [|discriminate].
    inversion H. subst cs'. rewrite !filter_cons, (IH cs1 eq_refl). reflexivity.
Qed.

Lemma append_edge_filter (e : element) (cs : list element) :
  filter (fun x => has_tag "w:tcBorders" x = false) (append_edge e cs)
  = filter (fun x => has_tag "w:tcBorders" x = false) cs.
Proof.
  unfold append_edge.
  destruct (append_in_first "w:tcBorders" e cs) as [cs'|] eqn:H.
  - apply (append_in_first_filter _ _ _ _ H).
  - rewrite filter_app, filter_cons, filter_nil.
    case_decide as H'; [discriminate H' | apply app_nil_r].
Qed.

Lemma border_loop_filter (kw items : kwargs) (cs : list element) :
  filter (fun x => has_tag "w:tcBorders" x = false) (fst (border_loop kw items cs))
  = filter (fun x => has_tag "w:tcBorders" x = false) cs.
Proof.
  revert cs. induction items as [|[k v] items IH]; intros cs; simpl; [reflexivity|].
  destruct (is_edge_key k); [|apply IH].
  destruct (border_element kw k); [|reflexivity].
  rewrite IH. apply append_edge_filter.
Qed.

Lemma find_first_filter_other (t u : string) (cs : list element) :
  t <> u ->
  find_first u (filter (fun x => has_tag t x = false) cs) = find_first u cs.
Proof.
  intros Hne. induction cs as [|x cs IH]; [reflexivity|].
  rewrite filter_cons. simpl. case_decide as E.
  - simpl. now rewrite IH.
  - destruct (has_tag t x) eqn:E'; [|congruence].
    now rewrite (has_tag_other t u x Hne E').
Qed.

(** X5.  Whatever its keyword arguments, and even when it raises,
    [set_cell_border] changes nothing but the border collection: the cell's
    paragraphs and, in order, every child of the container that is not a
    border collection are what they were; the shading a search finds is the
    one it found before. *)
Theorem set_cell_border_keeps_other_children (c : cell) (kw : kwargs) :
  let c' := fst (set_cell_border c kw) in
  paragraphs c' = paragraphs c
  /\ filter (fun e => has_tag "w:tcBorders" e = false) (get_or_add_tcPr c')
     = filter (fun e => has_tag "w:tcBorders" e = false) (get_or_add_tcPr c)
  /\ find_first "w:shd" (get_or_add_tcPr c')
     = find_first "w:shd" (get_or_add_tcPr c).
Proof.
  intros c'. subst c'. unfold set_cell_border.
  pose proof (border_loop_filter kw kw (get_or_add_tcPr c)) as H.
  destruct (border_loop kw kw (get_or_add_tcPr c)) as [cs ok].
  cbn [fst] in *. rewrite get_or_add_tcPr_some.
  split; [reflexivity|]. split; [exact H|].
  rewrite <- (find_first_filter_other "w:tcBorders" "w:shd" cs) by discriminate.
  rewrite H. apply find_first_filter_other. discriminate.
Qed.

Lemma append_edge_new (e : element) (cs : list element) :
  find_first "w:tcBorders" cs = None ->
  append_edge e cs = cs ++ [Elem "w:tcBorders" [] [e]].
Proof.
  intros H. unfold append_edge.
  pose proof (append_in_first_found "w:tcBorders" e cs) as H'.
  rewrite H in H'. now rewrite H'.
Qed.

Lemma append_in_first_snoc (t : string) (e b : element) (cs : list element) :
  find_first t cs = None -> has_tag t b = true ->
  append_in_first t e (cs ++ [b])
  = Some (cs ++ [Elem (tag b) (attrib b) (children b ++ [e])]).
Proof.
  intros Hcs Hb. induction cs as [|x cs IH]; simpl in *.
  - now rewrite Hb.
  - destruct (has_tag t x); [discriminate|]. now rewrite (IH Hcs).
Qed.

Lemma append_edge_last (e : element) (cs : list element)
    (a : list (string * string)) (es : list element) :
  find_first "w:tcBorders" cs = None ->
  append_edge e (cs ++ [Elem "w:tcBorders" a es])
  = cs ++ [Elem "w:tcBorders" a (es ++ [e])].
Proof.
  intros H. unfold append_edge.
  now rewrite (append_in_first_snoc "w:tcBorders" e (Elem "w:tcBorders" a es)
                 cs H eq_refl).
Qed.

(** X6.  On a cell without a border collection, the call [apply_table_style]
    makes for a border value appends one collection to the container; it
    holds the four edges in the order top, bottom, left, right, each with
    that value, size 4, spacing 0 and colour 000000, and the call
    returns. *)
Theorem set_cell_border_fresh_collection (c : cell) (val : string) :
  find_first "w:tcBorders" (get_or_add_tcPr c) = None ->
  set_cell_border c (border_kwargs val)
  = (mkCell
       (Some (get_or_add_tcPr c
              ++ [Elem "w:tcBorders" []
                    (map (fun key =>
                            Elem ("w:" +:+ key)
                                 [("w:val", val); ("w:sz", "4"); ("w:space", "0");
                                  ("w:color", "000000")]
                                 [])
                         ["top"; "bottom"; "left"; "right"])]))
       (paragraphs c),
     true).
Proof.
  intros H. unfold set_cell_border, border_kwargs.
  cbn [border_loop is_edge_key edge_keys existsb String.eqb Ascii.eqb Bool.eqb orb
       border_element kw_text Py.get mbind option_bind].
  rewrite (append_edge_new _ _ H).
  rewrite !(append_edge_last _ _ _ _ H).
  reflexivity.
Qed.

(** On a blank cell, with the value "thick". *)
Lemma set_cell_border_fresh_collection_witness :
  edge_count "left"
    (get_or_add_tcPr (fst (set_cell_border Examples.blank_cell (border_kwargs "thick"))))
  = 1%nat.
Proof.
  rewrite (set_cell_border_fresh_collection Examples.blank_cell "thick" eq_refl).
  reflexivity.
Defined.

End CellProofs.

(** ** Further properties of the table operations *)

Module TableProofs.
Import Docx Tables TablesProofs CellProofs.

(** *** Loops over handles *)

(** A loop that applies [f] to the cell behind each handle applies it to a
    given cell as many times as its handle occurs. *)
Lemma alter_all_count {A : Type} (f : A -> A) (ids : list nat)
    (store : list A) (id : nat) :
  foldl (fun st i => alter f i st) store ids !! id
  = Nat.iter (length (filter (fun i => i = id) ids)) f <$> store !! id.
Proof.
  revert store. induction ids as [|a ids IH]; intros store.
  - simpl. now destruct (store !! id).
  - cbn [foldl]. rewrite IH, filter_cons.
    destruct (decide (a = id)) as [->|Hne].
    + rewrite list_lookup_alter_eq. cbn [length].
      destruct (store !! id) as [x|]; [|reflexivity].
      change (Some (Nat.iter (length (filter (fun i => i = id) ids)) f (f x))
              = Some (Nat.iter (S (length (filter (fun i => i = id) ids))) f x)).
      now rewrite Nat.iter_succ_r.
    + now rewrite list_lookup_alter_ne by exact Hne.
Qed.

Lemma alter_all_length {A : Type} (f : A -> A) (ids : list nat) (store : list A) :
  length (foldl (fun st i => alter f i st) store ids) = length store.
Proof.
  revert store. induction ids as [|a ids IH]; intros store; [reflexivity|].
  cbn [foldl]. now rewrite IH, length_alter.
Qed.

Lemma filter_absent (id : nat) (ids : list nat) :
  id ∉ ids -> filter (fun i => i = id) ids = [].
Proof.
  induction ids as [|a ids IH]; intros H; [reflexivity|].
  apply not_elem_of_cons in H as [Hne H].
  rewrite filter_cons. case_decide; [congruence | apply IH, H].
Qed.

Lemma filter_present (id : nat) (ids : list nat) :
  id ∈ ids -> (1 <= length (filter (fun i => i = id) ids))%nat.
Proof.
  induction ids as [|a ids IH]; intros H; [inversion H|].
  rewrite filter_cons. case_decide; [simpl; lia|].
  apply elem_of_cons in H as [H|H]; [congruence | apply IH, H].
Qed.

(** *** Borders over a table *)

Lemma border_kwargs_text (val : string) : text_valued (border_kwargs val) = true.
Proof. reflexivity. Qed.

Lemma border_kwargs_keys (val : string) : NoDup (map fst (border_kwargs val)).
Proof. apply (bool_decide_unpack _). vm_compute. reflexivity. Qed.

Lemma edge_key_requested (val key : string) :
  is_edge_key key = true -> key ∈ map fst (border_kwargs val).
Proof.
  unfold is_edge_key, edge_keys. simpl. intros H.
  repeat (apply orb_true_iff in H as [H|H];
          [apply String.eqb_eq in H; subst key;
           repeat first [apply list_elem_of_here | apply list_elem_of_further]|]).
  discriminate.
Qed.

Lemma set_cell_border_returns (c : cell) (kw : kwargs) :
  text_valued kw = true -> snd (set_cell_border c kw) = true.
Proof.
  intros H. unfold set_cell_border.
  destruct (border_loop_count kw kw (get_or_add_tcPr c) "top" H eq_refl)
    as (cs & -> & _).
  reflexivity.
Qed.

(** With text arguments no call raises, and the loop over the cells is a
    loop of one cell update. *)
Lemma border_cells_text (kw : kwargs) (ids : list nat) (store : list cell) :
  text_valued kw = true ->
  border_cells kw ids store
  = (foldl (fun st i => alter (fun c => fst (set_cell_border c kw)) i st) store ids,
     true).
Proof.
  intros H. revert store. induction ids as [|id ids IH]; intros store.
  - reflexivity.
  - cbn [border_cells foldl].
    destruct (store !! id) as [c|] eqn:Hc.
    + pose proof (set_cell_border_returns c kw H) as Hok.
      destruct (set_cell_border c kw) as [c' ok] eqn:E. cbn [snd] in Hok. subst ok.
      rewrite IH.
      rewrite <- (alter_as_insert (fun c => fst (set_cell_border c kw)) store id c Hc).
      now rewrite E.
    + rewrite IH. now rewrite alter_absent.
Qed.

Lemma iter_border_count (c : cell) (val key : string) (n : nat) :
  is_edge_key key = true ->
  edge_count key
    (get_or_add_tcPr
       (Nat.iter n (fun c => fst (set_cell_border c (border_kwargs val))) c))
  = (edge_count key (get_or_add_tcPr c) + n)%nat.
Proof.
  intros Hkey. induction n as [|n IH]; [simpl; lia|].
  rewrite Nat.iter_succ.
  rewrite (proj2 (set_cell_border_count _ (border_kwargs val) key
                    (border_kwargs_keys val) (border_kwargs_text val) Hkey
                    (edge_key_requested val key Hkey))).
  rewrite IH. lia.
Qed.

Lemma iter_embolden_container (k : nat) (c : cell) :
  tcPr (Nat.iter k embolden_cell c) = tcPr c.
Proof. induction k as [|k IH]; [reflexivity|]. rewrite Nat.iter_succ. exact IH. Qed.

(** X7.  With a border style given and no shading matrix,
    [apply_table_style] adds to every cell one edge of each of the four
    names per position at which the rows yield the cell: one on a cell that
    is not merged, one per covered position on a merged cell, on top of the
    edges the cell already had. *)
Theorem apply_table_style_borders_per_position
    parse_shd t has_header_row border_style id c key :
  Py.truthy border_style = true -> is_edge_key key = true ->
  cells t !! id = Some c ->
  exists c',
    cells (fst (apply_table_style parse_shd t has_header_row (Some border_style) None))
      !! id = Some c'
    /\ edge_count key (get_or_add_tcPr c')
       = (edge_count key (get_or_add_tcPr c)
          + length (filter (fun i => i = id) (concat (rows t))))%nat.
Proof.
  intros Hbs Hkey Hc. unfold apply_table_style. rewrite Hbs.
  rewrite border_cells_text by apply border_kwargs_text.
  cbn [fst cells]. rewrite alter_all_count.
  set (store0 := if has_header_row then _ else _).
  assert (H0 : exists c0, store0 !! id = Some c0 /\ tcPr c0 = tcPr c).
  { subst store0. destruct has_header_row; [|eauto].
    destruct (rows t) as [|row0 rest]; [eauto|].
    unfold embolden_row. rewrite alter_all_count, Hc.
    eexists. split; [reflexivity | apply iter_embolden_container]. }
  destruct H0 as (c0 & -> & Htc). eexists. split; [reflexivity|].
  rewrite iter_border_count by exact Hkey.
  unfold get_or_add_tcPr. now rewrite Htc.
Qed.

(** On the merged table the one cell is yielded twice and gains two top
    edges. *)
Lemma apply_table_style_borders_per_position_witness :
  exists c',
    cells (fst (apply_table_style parse_plain Examples.merged_table false
                  (Some "double") None)) !! 0%nat = Some c'
    /\ edge_count "top" (get_or_add_tcPr c') = 2%nat.
Proof.
  destruct (apply_table_style_borders_per_position parse_plain Examples.merged_table
              false "double" 0%nat Examples.blank_cell "top" eq_refl eq_refl eq_refl)
    as (c' & H1 & H2).
  exists c'. split; [exact H1 | exact H2].
Defined.

(** *** The shading matrix *)

Lemma shade_matrix_row_length parse_shd j row_colors row store :
  length (shade_matrix_row parse_shd j row_colors row store) = length store.
Proof.
  revert j store. induction row_colors as [|color cs IH]; intros j store;
    [reflexivity|].
  cbn [shade_matrix_row]. destruct (row !! j) as [id|]; [|reflexivity].
  rewrite IH. destruct (parse_shd _); [apply length_alter | reflexivity].
Qed.

Lemma shade_matrix_length parse_shd i shading rs store :
  length (shade_matrix parse_shd i shading rs store) = length store.
Proof.
  revert i store. induction shading as [|row_colors sh IH]; intros i store;
    [reflexivity|].
  cbn [shade_matrix]. destruct (rs !! i) as [row|]; [|reflexivity].
  rewrite IH. apply shade_matrix_row_length.
Qed.

Lemma alter_keeps_paragraphs (f : cell -> cell) (i j : nat) (store : list cell) :
  (forall c, paragraphs (f c) = paragraphs c) ->
  paragraphs <$> alter f i store !! j = paragraphs <$> store !! j.
Proof.
  intros Hf. destruct (decide (i = j)) as [->|Hne].
  - rewrite list_lookup_alter_eq. destruct (store !! j); simpl; [|reflexivity].
    now rewrite Hf.
  - now rewrite list_lookup_alter_ne.
Qed.

Lemma shade_matrix_row_paragraphs parse_shd j row_colors row store id :
  paragraphs <$> shade_matrix_row parse_shd j row_colors row store !! id
  = paragraphs <$> store !! id.
Proof.
  revert j store. induction row_colors as [|color cs IH]; intros j store;
    [reflexivity|].
  cbn [shade_matrix_row]. destruct (row !! j) as [i|]; [|reflexivity].
  rewrite IH. destruct (parse_shd _); [|reflexivity].
  now apply alter_keeps_paragraphs.
Qed.

Lemma shade_matrix_paragraphs parse_shd i shading rs store id :
  paragraphs <$> shade_matrix parse_shd i shading rs store !! id
  = paragraphs <$> store !! id.
Proof.
  revert i store. induction shading as [|row_colors sh IH]; intros i store;
    [reflexivity|].
  cbn [shade_matrix]. destruct (rs !! i) as [row|]; [|reflexivity].
  rewrite IH. apply shade_matrix_row_paragraphs.
Qed.

Lemma alter_all_paragraphs (f : cell -> cell) (ids : list nat)
    (store : list cell) (id : nat) :
  (forall c, paragraphs (f c) = paragraphs c) ->
  paragraphs <$> foldl (fun st i => alter f i st) store ids !! id
  = paragraphs <$> store !! id.
Proof.
  intros Hf. revert store. induction ids as [|a ids IH]; intros store;
    [reflexivity|].
  cbn [foldl]. rewrite IH. now apply alter_keeps_paragraphs.
Qed.

Lemma set_cell_border_paragraphs (c : cell) (kw : kwargs) :
  paragraphs (fst (set_cell_border c kw)) = paragraphs c.
Proof.
  unfold set_cell_border. now destruct (border_loop kw kw (get_or_add_tcPr c)).
Qed.

(** The border and shading steps of [apply_table_style], taken from the
    store the header step left. *)
Lemma apply_table_style_steps parse_shd t has_header_row border_style shading :
  exists store',
    apply_table_style parse_shd t has_header_row border_style shading
    = (mkTable store' (rows t), true)
    /\ length store' = length (cells t)
    /\ forall id,
        paragraphs <$> store' !! id
        = paragraphs
            <$> (if has_header_row
                 then match rows t with
                      | header_row :: _ => embolden_row header_row (cells t)
                      | [] => cells t
                      end
                 else cells t) !! id.
Proof.
  unfold apply_table_style.
  set (store0 := if has_header_row then _ else _).
  assert (Hlen0 : length store0 = length (cells t)).
  { subst store0. destruct has_header_row; [|reflexivity].
    destruct (rows t); [reflexivity | apply alter_all_length]. }
  set (bordered := match border_style with Some _ => _ | None => _ end).
  assert (Hb : exists store1,
             bordered = (store1, true) /\ length store1 = length store0
             /\ forall id, paragraphs <$> store1 !! id = paragraphs <$> store0 !! id).
  { subst bordered. destruct border_style as [bs|]; [|eauto].
    destruct (Py.truthy bs); [|eauto].
    rewrite border_cells_text by apply border_kwargs_text.
    eexists. split; [reflexivity|]. split; [apply alter_all_length|].
    intros id. apply alter_all_paragraphs. intros c. apply set_cell_border_paragraphs. }
  destruct Hb as (store1 & -> & Hlen1 & Hp1).
  destruct shading as [sh|].
  - eexists. split; [reflexivity|]. split.
    + rewrite shade_matrix_length. congruence.
    + intros id. rewrite shade_matrix_paragraphs. apply Hp1.
  - eexists. split; [reflexivity|]. split; [congruence | exact Hp1].
Qed.

(** X8.  For every table and every argument [apply_table_style] returns
    [True]: with the text arguments it passes, no border call raises, and a
    colour the parser rejects is skipped.  The rows and the number of cell
    objects are what they were. *)
Theorem apply_table_style_never_fails
    parse_shd t has_header_row border_style shading :
  let res := apply_table_style parse_shd t has_header_row border_style shading in
  snd res = true
  /\ rows (fst res) = rows t
  /\ length (cells (fst res)) = length (cells t).
Proof.
  intros res. subst res.
  destruct (apply_table_style_steps parse_shd t has_header_row border_style shading)
    as (store' & -> & Hlen & _).
  repeat split. exact Hlen.
Qed.

(** X9.  Borders and shading never touch text.  After [apply_table_style],
    whatever the border style and the shading matrix, a cell the header row
    yields (when a header row was asked for) has every run made bold and
    nothing else about its paragraphs changed, and every other cell has the
    paragraphs it had. *)
Theorem apply_table_style_paragraphs
    parse_shd t (has_header_row : bool) border_style shading id c :
  cells t !! id = Some c ->
  let header := if has_header_row then default [] (head (rows t)) else [] in
  exists c',
    cells (fst (apply_table_style parse_shd t has_header_row border_style shading))
      !! id = Some c'
    /\ (id ∈ header ->
        paragraphs c'
        = map (fun p => mkParagraph (map (set_bold true) (runs p))) (paragraphs c))
    /\ (id ∉ header -> paragraphs c' = paragraphs c).
Proof.
  intros Hc header.
  destruct (apply_table_style_steps parse_shd t has_header_row border_style shading)
    as (store' & -> & _ & Hp).
  cbn [fst cells]. specialize (Hp id).
  assert (H0 : exists c0,
             (if has_header_row
              then match rows t with
                   | header_row :: _ => embolden_row header_row (cells t)
                   | [] => cells t
                   end
              else cells t) !! id = Some c0
             /\ (id ∈ header -> paragraphs c0 = paragraphs (embolden_cell c))
             /\ (id ∉ header -> paragraphs c0 = paragraphs c)).
  { subst header. destruct has_header_row.
    - destruct (rows t) as [|row0 rest]; cbn [head default].
      + exists c. split; [exact Hc|]. split; [intros H; inversion H | reflexivity].
      + unfold embolden_row. rewrite alter_all_count, Hc. eexists.
        split; [reflexivity|]. split.
        * intros Hin. apply (filter_present id row0) in Hin.
          set (n := length (filter (fun i => i = id) row0)) in *.
          destruct n as [|k]; [lia|].
          clear Hin. induction k as [|k IH]; [reflexivity|].
          rewrite Nat.iter_succ.
          change (paragraphs (embolden_cell ?x))
            with (map (fun p => mkParagraph (map (set_bold true) (runs p)))
                      (paragraphs x)) at 1.
          rewrite IH. apply embolden_cell_idem.
        * intros Hout. now rewrite (filter_absent id row0 Hout).
    - exists c. split; [exact Hc|]. split; [intros H; inversion H | reflexivity]. }
  destruct H0 as (c0 & Hc0 & Hin & Hout). rewrite Hc0 in Hp.
  destruct (store' !! id) as [c'|]; [|discriminate].
  exists c'. split; [reflexivity|]. cbn in Hp. inversion Hp as [Hpar].
  split; intros H; rewrite Hpar; [apply Hin, H | apply Hout, H].
Qed.

(** On the two-by-two table with everything asked for, the shaded cell of
    the header row keeps its text, now bold. *)
Lemma apply_table_style_paragraphs_witness :
  exists c',
    cells (fst (apply_table_style parse_plain Examples.grid_table true
                  (Some "single") (Some [["FF0000"; "00FF00"]]))) !! 1%nat = Some c'
    /\ paragraphs c' = [mkParagraph [set_bold true (new_run "Total")]].
Proof.
  destruct (apply_table_style_paragraphs parse_plain Examples.grid_table true
              (Some "single") (Some [["FF0000"; "00FF00"]]) 1%nat
              Examples.shaded_cell eq_refl) as (c' & H1 & H2 & _).
  exists c'. split; [exact H1|].
  apply H2. apply list_elem_of_further, list_elem_of_here.
Defined.

Lemma lower_char_idem (c : ascii) : Py.lower_char (Py.lower_char c) = Py.lower_char c.
Proof. destruct c as [[] [] [] [] [] [] [] []]; reflexivity. Qed.

Lemma lower_idem (s : string) : Py.lower (Py.lower s) = Py.lower s.
Proof.
  induction s as [|c s IH]; [reflexivity|].
  unfold Py.lower in *. simpl. now rewrite lower_char_idem, IH.
Qed.

Lemma lower_truthy (s : string) : Py.truthy (Py.lower s) = Py.truthy s.
Proof. now destruct s. Qed.

(** X10.  The border keyword is read without regard to letter case, and a
    keyword that is none of none, single, double and thick acts as single:
    any non-empty keyword gives what its lower-case form, or "single" when
    that is not one of the four, gives. *)
Theorem apply_table_style_border_keyword
    parse_shd t has_header_row border_style shading :
  Py.truthy border_style = true ->
  apply_table_style parse_shd t has_header_row (Some border_style) shading
  = apply_table_style parse_shd t has_header_row
      (Some (match Py.get (Py.lower border_style) val_map with
             | Some _ => Py.lower border_style
             | None => "single"
             end))
      shading.
Proof.
  intros H. unfold apply_table_style. rewrite H.
  destruct (Py.get (Py.lower border_style) val_map) as [v|] eqn:E.
  - now rewrite lower_truthy, H, lower_idem, E.
  - reflexivity.
Qed.

(** "THICK" and "dotted" act as "thick" and "single". *)
Lemma apply_table_style_border_keyword_witness :
  apply_table_style parse_plain Examples.grid_table false (Some "THICK") None
  = apply_table_style parse_plain Examples.grid_table false (Some "thick") None
  /\ apply_table_style parse_plain Examples.grid_table false (Some "dotted") None
     = apply_table_style parse_plain Examples.grid_table false (Some "single") None.
Proof.
  split.
  - exact (apply_table_style_border_keyword parse_plain Examples.grid_table false
             "THICK" None eq_refl).
  - exact (apply_table_style_border_keyword parse_plain Examples.grid_table false
             "dotted" None eq_refl).
Defined.

Lemma shade_matrix_row_clip parse_shd j row_colors row store :
  shade_matrix_row parse_shd j (take (length row - j) row_colors) row store
  = shade_matrix_row parse_shd j row_colors row store.
Proof.
  revert j store. induction row_colors as [|color cs IH]; intros j store.
  - now rewrite take_nil.
  - destruct (row !! j) as [id|] eqn:Hj.
    + pose proof (lookup_lt_Some _ _ _ Hj) as Hlt.
      replace (length row - j)%nat with (S (length row - S j)) by lia.
      cbn [take shade_matrix_row]. rewrite Hj. apply IH.
    + pose proof (proj1 (lookup_ge_None _ _) Hj) as Hge.
      replace (length row - j)%nat with 0%nat by lia.
      cbn [take shade_matrix_row]. now rewrite Hj.
Qed.

Lemma shade_matrix_clip parse_shd i shading rs store :
  shade_matrix parse_shd i
    (zip_with (fun row row_colors => take (length row) row_colors) (drop i rs) shading)
    rs store
  = shade_matrix parse_shd i shading rs store.
Proof.
  revert i store. induction shading as [|row_colors sh IH]; intros i store.
  - now destruct (drop i rs).
  - destruct (rs !! i) as [row|] eqn:Hi.
    + rewrite (drop_S rs row i Hi). cbn [zip_with shade_matrix]. rewrite Hi, IH.
      f_equal. rewrite <- (shade_matrix_row_clip parse_shd 0 row_colors).
      now rewrite Nat.sub_0_r.
    + pose proof (proj1 (lookup_ge_None _ _) Hi) as Hge.
      rewrite drop_ge by exact Hge. cbn [zip_with shade_matrix]. now rewrite Hi.
Qed.

(** X11.  A shading matrix larger than the table is accepted: the rows of
    colours past the last table row, and in each row the colours past the
    row's last cell, are ignored, so the call does what it does with the
    matrix cut to the table's shape. *)
Theorem apply_table_style_shading_surplus
    parse_shd t has_header_row border_style shading :
  apply_table_style parse_shd t has_header_row border_style (Some shading)
  = apply_table_style parse_shd t has_header_row border_style
      (Some (zip_with (fun row row_colors => take (length row) row_colors)
                      (rows t) shading)).
Proof.
  unfold apply_table_style.
  destruct (match border_style with Some _ => _ | None => _ end) as [store ok].
  destruct ok; [|reflexivity].
  now rewrite <- (shade_matrix_clip parse_shd 0 shading (rows t) store).
Qed.

Lemma shade_matrix_row_other parse_shd j row_colors row store id :
  (forall k, (j <= k)%nat -> row !! k <> Some id) ->
  shade_matrix_row parse_shd j row_colors row store !! id = store !! id.
Proof.
  revert j store. induction row_colors as [|color cs IH]; intros j store H;
    [reflexivity|].
  cbn [shade_matrix_row]. destruct (row !! j) as [i|] eqn:Hj; [|reflexivity].
  rewrite IH by (intros k Hk; apply H; lia).
  destruct (parse_shd _); [|reflexivity].
  apply list_lookup_alter_ne. intros ->. apply (H j); [lia | exact Hj].
Qed.

Lemma shade_matrix_row_at parse_shd j k row_colors row store id color a :
  row !! (j + k)%nat = Some id -> row_colors !! k = Some color ->
  (forall k', row !! k' = Some id -> k' = (j + k)%nat) ->
  parse_shd [("w:fill", color)] = Some a ->
  shade_matrix_row parse_shd j row_colors row store !! id
  = append_shd a <$> store !! id.
Proof.
  revert j k store. induction row_colors as [|color0 cs IH];
    intros j k store Hid Hcolor Huniq Hparse; [discriminate|].
  cbn [shade_matrix_row]. destruct k as [|k].
  - rewrite Nat.add_0_r in Hid, Huniq. rewrite Hid.
    simpl in Hcolor. inversion Hcolor. subst color0. rewrite Hparse.
    rewrite shade_matrix_row_other.
    + apply list_lookup_alter_eq.
    + intros k' Hk' Hk. apply Huniq in Hk. lia.
  - destruct (row !! j) as [i|] eqn:Hj.
    + assert (Hne : i <> id).
      { intros ->. apply Huniq in Hj. lia. }
      set (store1 := match parse_shd [("w:fill", color0)] with
                     | Some a0 => alter (append_shd a0) i store
                     | None => store
                     end).
      assert (H1 : store1 !! id = store !! id).
      { subst store1. destruct (parse_shd [("w:fill", color0)]); [|reflexivity].
        now rewrite list_lookup_alter_ne. }
      rewrite <- H1. apply (IH (S j) k store1).
      * now replace (S j + k)%nat with (j + S k)%nat by lia.
      * exact Hcolor.
      * intros k' Hk'. apply Huniq in Hk'. lia.
      * exact Hparse.
    + apply lookup_ge_None in Hj. apply lookup_lt_Some in Hid. lia.
Qed.

Lemma shade_matrix_other parse_shd i shading rs store id :
  (forall k row, (i <= k)%nat -> rs !! k = Some row -> id ∉ row) ->
  shade_matrix parse_shd i shading rs store !! id = store !! id.
Proof.
  revert i store. induction shading as [|row_colors sh IH]; intros i store H;
    [reflexivity|].
  cbn [shade_matrix]. destruct (rs !! i) as [row|] eqn:Hi; [|reflexivity].
  rewrite IH by (intros k row' Hk; apply H; lia).
  apply shade_matrix_row_other. intros k _ Hk.
  apply (H i row); [lia | exact Hi | apply list_elem_of_lookup; eauto].
Qed.

Lemma shade_matrix_at parse_shd i k shading rs store row row_colors j id color a :
  rs !! (i + k)%nat = Some row -> shading !! k = Some row_colors ->
  row !! j = Some id -> row_colors !! j = Some color ->
  (forall i' j' row', rs !! i' = Some row' -> row' !! j' = Some id ->
                      i' = (i + k)%nat /\ j' = j) ->
  parse_shd [("w:fill", color)] = Some a ->
  shade_matrix parse_shd i shading rs store !! id = append_shd a <$> store !! id.
Proof.
  revert i k store. induction shading as [|colors0 sh IH];
    intros i k store Hrow Hcolors Hid Hcolor Huniq Hparse; [discriminate|].
  cbn [shade_matrix]. destruct k as [|k].
  - rewrite Nat.add_0_r in Hrow, Huniq. rewrite Hrow.
    simpl in Hcolors. inversion Hcolors. subst colors0.
    rewrite shade_matrix_other.
    + apply (shade_matrix_row_at parse_shd 0 j row_colors row store id color a);
        try assumption.
      intros k' Hk'. now destruct (Huniq i k' row Hrow Hk').
    + intros k' row' Hk' Hrow' Hin.
      apply list_elem_of_lookup in Hin as [j' Hj'].
      destruct (Huniq k' j' row' Hrow' Hj'). lia.
  - destruct (rs !! i) as [row_i|] eqn:Hi.
    + rewrite (IH (S i) k); try assumption.
      * f_equal. apply shade_matrix_row_other. intros j' _ Hj'.
        destruct (Huniq i j' row_i Hi Hj'). lia.
      * now replace (S i + k)%nat with (i + S k)%nat by lia.
      * intros i' j' row' Hi' Hj'. destruct (Huniq i' j' row' Hi' Hj'). lia.
    + apply lookup_ge_None in Hi. apply lookup_lt_Some in Hrow. lia.
Qed.

(** X12.  The shading matrix is written as given.  For a cell the rows
    yield at one position only, with a colour entry at that position that
    is plain text, [apply_table_style] appends to the cell's container a
    shading fragment whose only attribute is the fill, holding the entry
    letter for letter (a leading '#' and lower case included); what the
    container held, an earlier shading included, stays in front of it. *)
Theorem apply_table_style_shading_verbatim
    parse_shd t shading i j row row_colors color id c :
  parses_plain parse_shd -> plain_text color = true ->
  rows t !! i = Some row -> row !! j = Some id ->
  shading !! i = Some row_colors -> row_colors !! j = Some color ->
  (forall i' j' row', rows t !! i' = Some row' -> row' !! j' = Some id ->
                      i' = i /\ j' = j) ->
  cells t !! id = Some c ->
  cells (fst (apply_table_style parse_shd t false None (Some shading))) !! id
  = Some (mkCell (Some (get_or_add_tcPr c ++ [shd_element [("w:fill", color)]]))
                 (paragraphs c)).
Proof.
  intros Hparse Hplain Hrow Hid Hcolors Hcolor Huniq Hc.
  unfold apply_table_style. cbn [fst cells].
  rewrite (shade_matrix_at parse_shd 0 i shading (rows t) (cells t) row row_colors
             j id color [("w:fill", color)]); try assumption.
  - now rewrite Hc.
  - apply Hparse.
    + apply (bool_decide_unpack _). vm_compute. reflexivity.
    + simpl. now rewrite Hplain.
Qed.

(** On the two-by-two table the cell that was shaded white gains a second
    fragment, with the colour as typed. *)
Lemma apply_table_style_shading_verbatim_witness :
  cells (fst (apply_table_style parse_plain Examples.grid_table false None
                (Some [["FF0000"; "#ff0000"]]))) !! 1%nat
  = Some (mkCell
            (Some (get_or_add_tcPr Examples.shaded_cell
                   ++ [shd_element [("w:fill", "#ff0000")]]))
            (paragraphs Examples.shaded_cell)).
Proof.
  apply (apply_table_style_shading_verbatim parse_plain Examples.grid_table
           [["FF0000"; "#ff0000"]] 0%nat 1%nat [0%nat; 1%nat] ["FF0000"; "#ff0000"]
           "#ff0000" 1%nat Examples.shaded_cell parse_plain_parses
           eq_refl eq_refl eq_refl eq_refl eq_refl).
  - intros [|[|i']] [|[|j']] row' Hi Hj; simpl in Hi; inversion Hi; subst row';
      simpl in Hj; try discriminate Hj; try (inversion Hj; fail); auto.
  - reflexivity.
Defined.

(** *** Alternating row shading *)

Lemma alter_keeps {B : Type} (g : cell -> B) (f : cell -> cell) (i j : nat)
    (store : list cell) :
  (forall c, g (f c) = g c) ->
  g <$> alter f i store !! j = g <$> store !! j.
Proof.
  intros Hf. destruct (decide (i = j)) as [->|Hne].
  - rewrite list_lookup_alter_eq. destruct (store !! j); simpl; [|reflexivity].
    now rewrite Hf.
  - now rewrite list_lookup_alter_ne.
Qed.

Lemma shade_row_keeps {B : Type} (g : cell -> B) parse_shd fill row store id :
  (forall c fill_color pattern pattern_color,
     g (fst (set_cell_shading parse_shd c fill_color pattern pattern_color)) = g c) ->
  g <$> shade_row parse_shd fill row store !! id = g <$> store !! id.
Proof.
  intros Hg. unfold shade_row. revert store.
  induction row as [|a row IH]; intros store; [reflexivity|].
  cbn [foldl]. rewrite IH. apply alter_keeps. intros c. apply Hg.
Qed.

Lemma shade_rows_keeps {B : Type} (g : cell -> B) parse_shd i color1 color2 rs
    store id :
  (forall c fill_color pattern pattern_color,
     g (fst (set_cell_shading parse_shd c fill_color pattern pattern_color)) = g c) ->
  g <$> shade_rows parse_shd i color1 color2 rs store !! id = g <$> store !! id.
Proof.
  intros Hg. revert i store. induction rs as [|row rs IH]; intros i store;
    [reflexivity|].
  cbn [shade_rows]. rewrite IH. now apply shade_row_keeps.
Qed.

Lemma shade_rows_length parse_shd i color1 color2 rs store :
  length (shade_rows parse_shd i color1 color2 rs store) = length store.
Proof.
  revert i store. induction rs as [|row rs IH]; intros i store; [reflexivity|].
  cbn [shade_rows]. rewrite IH. apply alter_all_length.
Qed.

Lemma set_cell_shading_others parse_shd c fill_color pattern pattern_color :
  filter (fun e => has_tag "w:shd" e = false)
    (get_or_add_tcPr (fst (set_cell_shading parse_shd c fill_color pattern
                             pattern_color)))
  = filter (fun e => has_tag "w:shd" e = false) (get_or_add_tcPr c).
Proof.
  unfold set_cell_shading.
  destruct (parse_shd _) as [a|]; cbn [fst]; rewrite get_or_add_tcPr_some.
  - rewrite filter_app, filter_remove_first, filter_cons, filter_nil.
    case_decide as H; [discriminate H | apply app_nil_r].
  - apply filter_remove_first.
Qed.

Lemma shade_rows_unlisted parse_shd i color1 color2 rs store id :
  (forall row, row ∈ rs -> id ∉ row) ->
  shade_rows parse_shd i color1 color2 rs store !! id = store !! id.
Proof.
  revert i store. induction rs as [|row rs IH]; intros i store H; [reflexivity|].
  cbn [shade_rows]. rewrite IH.
  - unfold shade_row. rewrite alter_all_count.
    rewrite (filter_absent id row) by (apply H, list_elem_of_here).
    simpl. now destruct (store !! id).
  - intros row' Hrow'. apply H. now apply list_elem_of_further.
Qed.

(** X13.  [apply_alternating_row_shading] returns [True] and changes
    nothing but shading fragments: the rows, the number of cell objects,
    every cell's paragraphs and, in order, the children of its container
    that are not shading fragments are what they were, and a cell no row
    yields is untouched. *)
Theorem apply_alternating_row_shading_frame parse_shd t color1 color2 :
  let res := apply_alternating_row_shading parse_shd t color1 color2 in
  snd res = true
  /\ rows (fst res) = rows t
  /\ length (cells (fst res)) = length (cells t)
  /\ (forall id,
        paragraphs <$> cells (fst res) !! id = paragraphs <$> cells t !! id)
  /\ (forall id,
        (fun c => filter (fun e => has_tag "w:shd" e = false) (get_or_add_tcPr c))
          <$> cells (fst res) !! id
        = (fun c => filter (fun e => has_tag "w:shd" e = false) (get_or_add_tcPr c))
            <$> cells t !! id)
  /\ (forall id, (forall row, row ∈ rows t -> id ∉ row) ->
                 cells (fst res) !! id = cells t !! id).
Proof.
  intros res. subst res. unfold apply_alternating_row_shading. cbn [fst snd cells rows].
  split; [reflexivity|]. split; [reflexivity|].
  split; [apply shade_rows_length|].
  split; [|split].
  - intros id. apply (shade_rows_keeps paragraphs).
    intros c f p pc. apply set_cell_shading_paragraphs.
  - intros id.
    apply (shade_rows_keeps
             (fun c => filter (fun e => has_tag "w:shd" e = false) (get_or_add_tcPr c))).
    intros c f p pc. apply set_cell_shading_others.
  - intros id H. now apply shade_rows_unlisted.
Qed.

(** One call after another on a cell with at most one shading fragment is
    the later call. *)
Lemma set_cell_shading_absorbs parse_shd c fill1 fill2 :
  (count_tag "w:shd" (get_or_add_tcPr c) <= 1)%nat ->
  fst (set_cell_shading parse_shd
         (fst (set_cell_shading parse_shd c (Some fill1) "clear" "auto"))
         (Some fill2) "clear" "auto")
  = fst (set_cell_shading parse_shd c (Some fill2) "clear" "auto").
Proof.
  intros H.
  destruct (set_cell_shading_from_one parse_shd c (Some fill1) "clear" "auto" H)
    as [_ Hrm].
  pose proof (set_cell_shading_paragraphs parse_shd c (Some fill1) "clear" "auto")
    as Hp.
  unfold set_cell_shading at 1 3. now rewrite Hrm, Hp.
Qed.

Lemma set_cell_shading_one parse_shd c fill_color pattern pattern_color :
  (count_tag "w:shd" (get_or_add_tcPr c) <= 1)%nat ->
  (count_tag "w:shd"
     (get_or_add_tcPr (fst (set_cell_shading parse_shd c fill_color pattern
                              pattern_color))) <= 1)%nat.
Proof.
  intros H. apply (set_cell_shading_bounded parse_shd c c); [|exact H].
  intros H'. exact H'.
Qed.

Lemma iter_shading_once parse_shd fill (k : nat) (c : cell) :
  (count_tag "w:shd" (get_or_add_tcPr c) <= 1)%nat -> (1 <= k)%nat ->
  Nat.iter k (fun c => fst (set_cell_shading parse_shd c (Some fill) "clear" "auto")) c
  = fst (set_cell_shading parse_shd c (Some fill) "clear" "auto").
Proof.
  intros H Hk. destruct k as [|k]; [lia|]. clear Hk.
  induction k as [|k IH]; [reflexivity|].
  rewrite Nat.iter_succ, IH. now apply set_cell_shading_absorbs.
Qed.

(** A pass over the rows leaves in a cell with at most one shading fragment
    what the call for the last row yielding it would leave on its own. *)
Lemma shade_rows_last_fill parse_shd i color1 color2 rs store id c :
  store !! id = Some c ->
  (count_tag "w:shd" (get_or_add_tcPr c) <= 1)%nat ->
  shade_rows parse_shd i color1 color2 rs store !! id
  = Some (match last_fill i color1 color2 rs id with
          | Some fill => fst (set_cell_shading parse_shd c (Some fill) "clear" "auto")
          | None => c
          end).
Proof.
  revert i store c. induction rs as [|row rs IH]; intros i store c Hc H1.
  - exact Hc.
  - cbn [shade_rows last_fill].
    set (fill := if (i mod 2 =? 0)%nat then color1 else color2).
    assert (Hrow : shade_row parse_shd fill row store !! id
                   = Some (if bool_decide (id ∈ row)
                           then fst (set_cell_shading parse_shd c (Some fill)
                                       "clear" "auto")
                           else c)).
    { unfold shade_row. rewrite alter_all_count, Hc. cbn. f_equal.
      case_bool_decide as Hin.
      - apply iter_shading_once; [exact H1 | now apply filter_present].
      - now rewrite (filter_absent id row Hin). }
    rewrite (IH (S i) _ _ Hrow).
    + destruct (last_fill (S i) color1 color2 rs id) as [fill'|].
      * case_bool_decide; [|reflexivity]. now rewrite set_cell_shading_absorbs.
      * now case_bool_decide.
    + case_bool_decide; [now apply set_cell_shading_one | exact H1].
Qed.

Lemma last_fill_some (color1 color2 color3 color4 : string)
    (rs : list (list nat)) (id i : nat) :
  is_Some (last_fill i color1 color2 rs id)
  <-> is_Some (last_fill i color3 color4 rs id).
Proof.
  revert i. induction rs as [|row rs IH]; intros i; [reflexivity|].
  cbn [last_fill]. specialize (IH (S i)).
  destruct (last_fill (S i) color1 color2 rs id),
           (last_fill (S i) color3 color4 rs id).
  - split; eauto.
  - destruct IH as [IH _]. destruct (IH ltac:(eauto)) as [? H]. discriminate H.
  - destruct IH as [_ IH]. destruct (IH ltac:(eauto)) as [? H]. discriminate H.
  - case_bool_decide; split; intros [? Hx]; eauto; discriminate Hx.
Qed.

(** X14.  On a table whose cells hold at most one shading fragment each,
    the last pass wins: alternating row shading with one pair of colours
    followed by alternating row shading with another pair leaves the table
    the second pass alone would leave.  With the same pair twice, a second
    run changes nothing. *)
Theorem apply_alternating_row_shading_last_pass_wins
    parse_shd t color1 color2 color3 color4 :
  Forall (fun c => (count_tag "w:shd" (get_or_add_tcPr c) <= 1)%nat) (cells t) ->
  apply_alternating_row_shading parse_shd
    (fst (apply_alternating_row_shading parse_shd t color1 color2)) color3 color4
  = apply_alternating_row_shading parse_shd t color3 color4.
Proof.
  intros Hone. unfold apply_alternating_row_shading. cbn [fst cells rows].
  f_equal. f_equal. apply list_eq. intros id.
  destruct (cells t !! id) as [c|] eqn:Hc.
  - assert (H1 : (count_tag "w:shd" (get_or_add_tcPr c) <= 1)%nat)
      by apply (Forall_lookup_1 _ _ _ _ Hone Hc).
    pose proof (shade_rows_last_fill parse_shd 0 color1 color2 (rows t) (cells t)
                  id c Hc H1) as Hfirst.
    rewrite (shade_rows_last_fill parse_shd 0 color3 color4 (rows t) (cells t)
               id c Hc H1).
    rewrite (shade_rows_last_fill parse_shd 0 color3 color4 (rows t) _ id _ Hfirst).
    + pose proof (last_fill_some color3 color4 color1 color2 (rows t) id 0) as Hsame.
      destruct (last_fill 0 color3 color4 (rows t) id) as [f3|],
               (last_fill 0 color1 color2 (rows t) id) as [f1|].
      * f_equal. now apply set_cell_shading_absorbs.
      * reflexivity.
      * destruct Hsame as [_ H]. destruct (H ltac:(eauto)) as [? H']. discriminate H'.
      * reflexivity.
    + destruct (last_fill 0 color1 color2 (rows t) id);
        [now apply set_cell_shading_one | exact H1].
  - pose proof (proj1 (lookup_ge_None _ _) Hc) as Hge.
    rewrite !(proj2 (lookup_ge_None _ _)); [reflexivity| |];
      rewrite !shade_rows_length; exact Hge.
Qed.

(** On the merged table: white and grey, then red and green, is red and
    green. *)
Lemma apply_alternating_row_shading_last_pass_wins_witness :
  apply_alternating_row_shading parse_plain
    (fst (apply_alternating_row_shading parse_plain Examples.merged_table
            "FFFFFF" "F2F2F2"))
    "FF0000" "00FF00"
  = apply_alternating_row_shading parse_plain Examples.merged_table "FF0000" "00FF00".
Proof.
  apply (apply_alternating_row_shading_last_pass_wins parse_plain
           Examples.merged_table "FFFFFF" "F2F2F2" "FF0000" "00FF00").
  repeat constructor.
Defined.

(** *** Header highlighting *)

Lemma highlight_run_text int16 (text_color : string) (r : run) :
  text (snd (highlight_run int16 text_color r)) = text r.
Proof.
  unfold highlight_run.
  destruct (Py.truthy text_color && negb (String.eqb text_color "auto"));
    [|reflexivity].
  now destruct (hex_to_rgb int16 (Py.lstrip "#" text_color)).
Qed.

Lemma map_accum_map {S A B : Type} (h : A -> B) (f : S -> A -> S * A)
    (s : S) (l : list A) :
  (forall s x, h (snd (f s x)) = h x) ->
  map h (snd (map_accum f s l)) = map h l.
Proof.
  intros Hf. revert s. induction l as [|x l IH]; intros s; [reflexivity|].
  cbn [map_accum map]. specialize (Hf s x). destruct (f s x) as [s1 x'].
  specialize (IH s1). destruct (map_accum f s1 l) as [s2 l'].
  cbn [snd map] in *. now rewrite Hf, IH.
Qed.

Lemma highlight_paragraph_text int16 (text_color : string) (p : paragraph) :
  map text (runs (snd (highlight_paragraph int16 text_color p))) = map text (runs p).
Proof.
  unfold highlight_paragraph.
  pose proof (map_accum_map text (highlight_run int16) text_color (runs p)
                (highlight_run_text int16)) as H.
  destruct (map_accum (highlight_run int16) text_color (runs p)) as [tc rs].
  exact H.
Qed.

Lemma highlight_cell_text parse_shd int16 header_color text_color c :
  map (fun p => map text (runs p))
      (paragraphs (snd (highlight_cell parse_shd int16 header_color text_color c)))
  = map (fun p => map text (runs p)) (paragraphs c).
Proof.
  unfold highlight_cell.
  pose proof (map_accum_map (fun p => map text (runs p))
                (highlight_paragraph int16) text_color
                (paragraphs (fst (set_cell_shading parse_shd c (Some header_color)
                                    "clear" "auto")))
                (highlight_paragraph_text int16)) as H.
  destruct (map_accum (highlight_paragraph int16) text_color _) as [tc ps].
  cbn [snd paragraphs] in *. rewrite H. now rewrite set_cell_shading_paragraphs.
Qed.

Lemma highlight_cells_keeps {B : Type} (g : cell -> B)
    parse_shd int16 header_color text_color row store id :
  (forall tc c, g (snd (highlight_cell parse_shd int16 header_color tc c)) = g c) ->
  g <$> highlight_cells parse_shd int16 header_color text_color row store !! id
  = g <$> store !! id.
Proof.
  intros Hg. revert text_color store.
  induction row as [|a row IH]; intros tc store; [reflexivity|].
  cbn [highlight_cells]. destruct (store !! a) as [c|] eqn:Ha; [|apply IH].
  specialize (Hg tc c).
  destruct (highlight_cell parse_shd int16 header_color tc c) as [tc' c'].
  cbn [snd] in Hg. rewrite IH.
  destruct (decide (a = id)) as [->|Hne].
  - rewrite list_lookup_insert_eq by (apply lookup_lt_Some in Ha; exact Ha).
    rewrite Ha. cbn. now rewrite Hg.
  - now rewrite list_lookup_insert_ne.
Qed.

Lemma highlight_cells_unlisted parse_shd int16 header_color text_color row store id :
  id ∉ row ->
  highlight_cells parse_shd int16 header_color text_color row store !! id
  = store !! id.
Proof.
  revert text_color store.
  induction row as [|a row IH]; intros tc store H; [reflexivity|].
  apply not_elem_of_cons in H as [Hne H].
  cbn [highlight_cells]. destruct (store !! a) as [c|]; [|now apply IH].
  destruct (highlight_cell parse_shd int16 header_color tc c) as [tc' c'].
  rewrite IH by exact H. apply list_lookup_insert_ne. congruence.
Qed.

Lemma highlight_cells_length parse_shd int16 header_color text_color row store :
  length (highlight_cells parse_shd int16 header_color text_color row store)
  = length store.
Proof.
  revert text_color store.
  induction row as [|a row IH]; intros tc store; [reflexivity|].
  cbn [highlight_cells]. destruct (store !! a) as [c|]; [|apply IH].
  destruct (highlight_cell parse_shd int16 header_color tc c) as [tc' c'].
  now rewrite IH, length_insert.
Qed.

(** X15.  Whatever the two colours, [highlight_header_row] returns [True]
    and keeps the rows and the number of cell objects; a cell the first row
    does not yield is untouched, and in every cell the text of every run,
    run by run, and the children of the container that are not shading
    fragments are what they were. *)
Theorem highlight_header_row_frame parse_shd int16 t header_color text_color :
  let res := highlight_header_row parse_shd int16 t header_color text_color in
  snd res = true
  /\ rows (fst res) = rows t
  /\ length (cells (fst res)) = length (cells t)
  /\ (forall id, id ∉ default [] (head (rows t)) ->
                 cells (fst res) !! id = cells t !! id)
  /\ (forall id,
        (fun c => map (fun p => map text (runs p)) (paragraphs c))
          <$> cells (fst res) !! id
        = (fun c => map (fun p => map text (runs p)) (paragraphs c))
            <$> cells t !! id)
  /\ (forall id,
        (fun c => filter (fun e => has_tag "w:shd" e = false) (get_or_add_tcPr c))
          <$> cells (fst res) !! id
        = (fun c => filter (fun e => has_tag "w:shd" e = false) (get_or_add_tcPr c))
            <$> cells t !! id).
Proof.
  intros res. subst res. unfold highlight_header_row.
  destruct (rows t) as [|row0 rest] eqn:Hrows; cbn [fst snd cells rows head default].
  - repeat split; first [reflexivity | exact Hrows].
  - split; [reflexivity|]. split; [first [reflexivity | exact Hrows]|].
    split; [apply highlight_cells_length|].
    split; [|split].
    + intros id Hid. now apply highlight_cells_unlisted.
    + intros id.
      apply (highlight_cells_keeps
               (fun c => map (fun p => map text (runs p)) (paragraphs c))).
      intros tc c. apply highlight_cell_text.
    + intros id.
      apply (highlight_cells_keeps
               (fun c => filter (fun e => has_tag "w:shd" e = false)
                           (get_or_add_tcPr c))).
      intros tc c. rewrite highlight_cell_container. apply set_cell_shading_others.
Qed.

Lemma lstrip_nonempty (c : ascii) (s : string) :
  Py.lstrip c s <> EmptyString -> Py.truthy s = true.
Proof. destruct s; [intros H; now elim H | reflexivity]. Qed.

Section ReadableColor.
Variable parse_shd : list (string * string) -> option (list (string * string)).
Variable int16 : string -> option Z.
Variable stripped : string.
Variable rgb : RGBColor.
Hypothesis stripped_reads : hex_to_rgb int16 stripped = Some rgb.
Hypothesis stripped_nonempty : stripped <> EmptyString.
Hypothesis stripped_not_auto : stripped <> "auto".

(** The text colours the loop can carry: they strip to [stripped] and
    pass the test of line 243. *)
Lemma highlight_run_read (text_color : string) (r : run) :
  Py.lstrip "#" text_color = stripped ->
  highlight_run int16 text_color r
  = (stripped, set_font_color rgb (set_bold true r)).
Proof.
  intros Hs. unfold highlight_run.
  assert (Ht : Py.truthy text_color = true).
  { apply (lstrip_nonempty "#"). now rewrite Hs. }
  assert (Ha : String.eqb text_color "auto" = false).
  { apply String.eqb_neq. intros ->. apply stripped_not_auto. now rewrite <- Hs. }
  rewrite Ht, Ha, Hs, stripped_reads. reflexivity.
Qed.

Lemma highlight_runs_read (text_color : string) (rs : list run) :
  Py.lstrip "#" text_color = stripped ->
  exists text_color',
    map_accum (highlight_run int16) text_color rs
    = (text_color', map (fun r => set_font_color rgb (set_bold true r)) rs)
    /\ Py.lstrip "#" text_color' = stripped.
Proof.
  revert text_color. induction rs as [|r rs IH]; intros tc Hs.
  - eexists. split; [reflexivity | exact Hs].
  - cbn [map_accum map]. rewrite (highlight_run_read tc r Hs).
    destruct (IH stripped) as (tc2 & -> & H2).
    { rewrite <- Hs. apply PyFacts.lstrip_idem. }
    eexists. split; [reflexivity | exact H2].
Qed.

Lemma highlight_paragraphs_read (text_color : string) (ps : list paragraph) :
  Py.lstrip "#" text_color = stripped ->
  exists text_color',
    map_accum (highlight_paragraph int16) text_color ps
    = (text_color',
       map (fun p => mkParagraph
                       (map (fun r => set_font_color rgb (set_bold true r)) (runs p)))
           ps)
    /\ Py.lstrip "#" text_color' = stripped.
Proof.
  revert text_color. induction ps as [|p ps IH]; intros tc Hs.
  - eexists. split; [reflexivity | exact Hs].
  - cbn [map_accum map]. unfold highlight_paragraph at 1.
    destruct (highlight_runs_read tc (runs p) Hs) as (tc1 & -> & H1).
    destruct (IH tc1 H1) as (tc2 & -> & H2).
    eexists. split; [reflexivity | exact H2].
Qed.

Lemma highlight_cells_read (header_color text_color : string)
    (row : list nat) (store : list cell) :
  Py.lstrip "#" text_color = stripped ->
  highlight_cells parse_shd int16 header_color text_color row store
  = foldl (fun st id =>
             alter (fun c =>
                      mkCell
                        (tcPr (fst (set_cell_shading parse_shd c (Some header_color)
                                      "clear" "auto")))
                        (map (fun p =>
                                mkParagraph
                                  (map (fun r => set_font_color rgb (set_bold true r))
                                       (runs p)))
                             (paragraphs c)))
                   id st)
          store row.
Proof.
  revert text_color store. induction row as [|id row IH]; intros tc store Hs.
  - reflexivity.
  - cbn [highlight_cells foldl].
    destruct (store !! id) as [c|] eqn:Hc.
    + unfold highlight_cell.
      destruct (highlight_paragraphs_read tc
                  (paragraphs (fst (set_cell_shading parse_shd c (Some header_color)
                                      "clear" "auto"))) Hs) as (tc1 & -> & H1).
      rewrite (IH tc1 _ H1), set_cell_shading_paragraphs.
      now rewrite <- (alter_as_insert
                        (fun c =>
                           mkCell
                             (tcPr (fst (set_cell_shading parse_shd c
                                           (Some header_color) "clear" "auto")))
                             (map (fun p =>
                                     mkParagraph
                                       (map (fun r =>
                                               set_font_color rgb (set_bold true r))
                                            (runs p)))
                                  (paragraphs c)))
                        store id c Hc).
    + rewrite (IH tc _ Hs). now rewrite alter_absent.
Qed.

End ReadableColor.

(** X16.  With a text colour whose stripped form the hex reading accepts
    (and which is not empty or "auto", as Python's [int] guarantees of any
    text it accepts), every run of every cell the first row yields is the
    run it was with bold set and the font colour set to the colour read;
    its text and its other formatting are as before. *)
Theorem highlight_header_row_colors_runs
    parse_shd int16 t header_color text_color rgb row0 rest id c :
  hex_to_rgb int16 (Py.lstrip "#" text_color) = Some rgb ->
  Py.lstrip "#" text_color <> EmptyString ->
  Py.lstrip "#" text_color <> "auto" ->
  rows t = row0 :: rest -> id ∈ row0 -> cells t !! id = Some c ->
  exists c',
    cells (fst (highlight_header_row parse_shd int16 t header_color text_color))
      !! id = Some c'
    /\ paragraphs c'
       = map (fun p => mkParagraph
                         (map (fun r => set_font_color rgb (set_bold true r))
                              (runs p)))
             (paragraphs c).
Proof.
  intros Hread Hne Hna Hrows Hin Hc. unfold highlight_header_row. rewrite Hrows.
  cbn [fst cells].
  rewrite (highlight_cells_read parse_shd int16 (Py.lstrip "#" text_color) rgb
             Hread Hne Hna header_color text_color row0 (cells t) eq_refl).
  rewrite alter_all_count, Hc. eexists. split; [reflexivity|].
  pose proof (filter_present id row0 Hin) as Hk.
  set (n := length (filter (fun i => i = id) row0)) in *.
  destruct n as [|k]; [lia|]. clear Hk.
  induction k as [|k IH]; [reflexivity|].
  rewrite Nat.iter_succ. cbn [paragraphs]. rewrite IH.
  rewrite map_map. apply map_ext. intros p. cbn [runs]. rewrite map_map.
  reflexivity.
Qed.

(** On the two-by-two table with white text on the default blue. *)
Lemma highlight_header_row_colors_runs_witness :
  exists c',
    cells (fst (highlight_header_row parse_plain Py.int16_digits Examples.grid_table
                  "4472C4" "#FFFFFF")) !! 1%nat = Some c'
    /\ paragraphs c'
       = [mkParagraph [set_font_color (mkRGB 255 255 255)
                         (set_bold true (new_run "Total"))]].
Proof.
  destruct (highlight_header_row_colors_runs parse_plain Py.int16_digits
              Examples.grid_table "4472C4" "#FFFFFF" (mkRGB 255 255 255)
              [0%nat; 1%nat] [[2%nat; 3%nat]] 1%nat Examples.shaded_cell
              eq_refl) as (c' & H1 & H2).
  - discriminate.
  - discriminate.
  - reflexivity.
  - apply list_elem_of_further, list_elem_of_here.
  - reflexivity.
  - exists c'. split; [exact H1 | exact H2].
Defined.

(** *** The hex reading *)

Lemma take_append (n : nat) (s extra : string) :
  (n <= String.length s)%nat -> Py.take n (s +:+ extra) = Py.take n s.
Proof.
  revert s. induction n as [|n IH]; intros s H.
  - now destruct s, extra.
  - destruct s as [|c s]; [simpl in H; lia|].
    rewrite PyFacts.append_cons. simpl. f_equal. apply IH. simpl in H. lia.
Qed.

Lemma drop_append (n : nat) (s extra : string) :
  (n <= String.length s)%nat -> Py.drop n (s +:+ extra) = Py.drop n s +:+ extra.
Proof.
  revert s. induction n as [|n IH]; intros s H; [reflexivity|].
  destruct s as [|c s]; [simpl in H; lia|].
  rewrite PyFacts.append_cons. simpl. apply IH. simpl in H. lia.
Qed.

Lemma length_append (s extra : string) :
  String.length (s +:+ extra) = (String.length s + String.length extra)%nat.
Proof.
  induction s as [|c s IH]; [reflexivity|].
  rewrite PyFacts.append_cons. simpl. now rewrite IH.
Qed.

Lemma slice_append (s extra : string) (a b : Z) :
  0 <= a <= b -> b <= Py.len s ->
  Py.slice (s +:+ extra) (Some a) (Some b) = Py.slice s (Some a) (Some b).
Proof.
  intros H1 H2.
  rewrite !PyFacts.slice_middle;
    try lia; [|unfold Py.len in *; rewrite length_append; lia].
  rewrite drop_append by (unfold Py.len in H2; lia).
  apply take_append. rewrite PyFacts.length_drop. unfold Py.len in H2. lia.
Qed.

(** X17.  The hex reading of a text colour looks at the first six
    characters only: whatever follows them, an alpha channel for one, is
    ignored. *)
Theorem hex_to_rgb_ignores_tail int16 (s extra : string) :
  (6 <= String.length s)%nat ->
  hex_to_rgb int16 (s +:+ extra) = hex_to_rgb int16 s.
Proof.
  intros H. unfold hex_to_rgb.
  rewrite !slice_append by (unfold Py.len; lia). reflexivity.
Qed.

(** The eight characters FFFFFFAB read as white. *)
Lemma hex_to_rgb_ignores_tail_witness :
  hex_to_rgb Py.int16_digits "FFFFFFAB" = Some (mkRGB 255 255 255).
Proof.
  change "FFFFFFAB" with ("FFFFFF" +:+ "AB").
  rewrite (hex_to_rgb_ignores_tail Py.int16_digits "FFFFFF" "AB")
    by (simpl; lia).
  reflexivity.
Defined.

(** *** A text colour that is no hex colour, yet read *)

(** C9, at the text colour "12345".  The text is not six hexadecimal
    digits, yet the reading of lines 246-250 succeeds on it, taking "12",
    "34" and "5" as the three channels: the call returns [True], and every
    run of every cell the first row yields ends with the font colour
    (18, 52, 5), whatever its font colour was, where the claim has the
    font colour left as it was. *)
Theorem highlight_header_row_reads_short_text_color
    parse_shd int16 t header_color row0 rest id c :
  int16 "12" = Some 18 -> int16 "34" = Some 52 -> int16 "5" = Some 5 ->
  rows t = row0 :: rest -> id ∈ row0 -> cells t !! id = Some c ->
  valid_fill "12345" = false
  /\ snd (highlight_header_row parse_shd int16 t header_color "12345") = true
  /\ exists c',
       cells (fst (highlight_header_row parse_shd int16 t header_color "12345"))
         !! id = Some c'
       /\ paragraphs c'
          = map (fun p => mkParagraph
                            (map (fun r => set_font_color (mkRGB 18 52 5)
                                             (set_bold true r))
                                 (runs p)))
                (paragraphs c).
Proof.
  intros H12 H34 H5 Hrows Hin Hc.
  assert (Hread : hex_to_rgb int16 "12345" = Some (mkRGB 18 52 5)).
  { unfold hex_to_rgb.
    change (Py.slice "12345" (Some 0) (Some 2)) with "12".
    change (Py.slice "12345" (Some 2) (Some 4)) with "34".
    change (Py.slice "12345" (Some 4) (Some 6)) with "5".
    rewrite H12, H34, H5. reflexivity. }
  split; [reflexivity|].
  unfold highlight_header_row. rewrite Hrows. split; [reflexivity|].
  cbn [fst cells].
  rewrite (highlight_cells_read parse_shd int16 "12345" (mkRGB 18 52 5) Hread
             ltac:(discriminate) ltac:(discriminate)
             header_color "12345" row0 (cells t) eq_refl).
  rewrite alter_all_count, Hc. eexists. split; [reflexivity|].
  pose proof (filter_present id row0 Hin) as Hk.
  set (n := length (filter (fun i => i = id) row0)) in *.
  destruct n as [|k]; [lia|]. clear Hk.
  induction k as [|k IH]; [reflexivity|].
  rewrite Nat.iter_succ. cbn [paragraphs]. rewrite IH.
  rewrite map_map. apply map_ext. intros p. cbn [runs]. rewrite map_map.
  reflexivity.
Qed.

(** On the two-by-two table: the run "Total" of the header cell had no
    font colour and ends with (18, 52, 5). *)
Lemma highlight_header_row_reads_short_text_color_witness :
  font_color (new_run "Total") = None
  /\ valid_fill "12345" = false
  /\ snd (highlight_header_row parse_plain Py.int16_digits Examples.grid_table
            "4472C4" "12345") = true
  /\ exists c',
       cells (fst (highlight_header_row parse_plain Py.int16_digits
                     Examples.grid_table "4472C4" "12345")) !! 1%nat = Some c'
       /\ paragraphs c'
          = [mkParagraph [set_font_color (mkRGB 18 52 5)
                            (set_bold true (new_run "Total"))]].
Proof.
  split; [reflexivity|].
  apply (highlight_header_row_reads_short_text_color parse_plain Py.int16_digits
           Examples.grid_table "4472C4" [0%nat; 1%nat] [[2%nat; 3%nat]] 1%nat
           Examples.shaded_cell).
  - reflexivity.
  - reflexivity.
  - reflexivity.
  - reflexivity.
  - apply list_elem_of_further, list_elem_of_here.
  - reflexivity.
Defined.

End TableProofs.

(** ** The table tools and the text formatter as a whole *)

Module ToolProofs.
Import Docx Tables FormatTools TablesProofs CellProofs TableProofs FormatToolsProofs.

(** *** The checks every table tool starts with *)

Lemma open_table_found (f : table_file) (table_index : Z) (t : table) :
  tf_exists f = true -> fst (tf_writeable f) = true ->
  0 <= table_index -> tf_tables f !! Z.to_nat table_index = Some t ->
  open_table f table_index = inr t.
Proof.
  intros Hex Hwr Hidx Ht. unfold open_table. rewrite Hex, Hwr. simpl.
  pose proof (lookup_lt_Some _ _ _ Ht) as Hlt.
  replace (table_index <? 0) with false by (symmetry; apply Z.ltb_ge; lia).
  replace (Z.of_nat (length (tf_tables f)) <=? table_index) with false
    by (symmetry; apply Z.leb_gt; lia).
  simpl. now rewrite Ht.
Qed.

Lemma open_table_out_of_range (f : table_file) (table_index : Z) :
  tf_exists f = true -> fst (tf_writeable f) = true ->
  ~ (0 <= table_index < Z.of_nat (length (tf_tables f))) ->
  open_table f table_index = inl (InvalidTableIndex (Z.of_nat (length (tf_tables f)))).
Proof.
  intros Hex Hwr Hidx. unfold open_table. rewrite Hex, Hwr. simpl.
  destruct (Z.ltb_spec table_index 0); [reflexivity|].
  destruct (Z.leb_spec (Z.of_nat (length (tf_tables f))) table_index);
    [reflexivity|].
  exfalso. apply Hidx. lia.
Qed.

(** X18.  With the file present and writeable and a table index outside
    [0, number of tables), each of the four table tools answers that the
    table index is invalid, quoting the number of tables, and saves
    nothing. *)
Theorem table_tools_invalid_table_index
    parse_shd int16 (f : table_file) (table_index : Z) :
  tf_exists f = true -> fst (tf_writeable f) = true ->
  ~ (0 <= table_index < Z.of_nat (length (tf_tables f))) ->
  let answer := (InvalidTableIndex (Z.of_nat (length (tf_tables f))), tf_tables f) in
  (forall has_header_row border_style shading,
     format_table parse_shd f table_index has_header_row border_style shading
     = answer)
  /\ (forall row_index col_index fill_color pattern,
        set_table_cell_shading parse_shd f table_index row_index col_index
          fill_color pattern = answer)
  /\ (forall color1 color2,
        apply_table_alternating_rows parse_shd f table_index color1 color2 = answer)
  /\ (forall header_color text_color,
        highlight_table_header parse_shd int16 f table_index header_color text_color
        = answer).
Proof.
  intros Hex Hwr Hidx answer. subst answer.
  pose proof (open_table_out_of_range f table_index Hex Hwr Hidx) as Hopen.
  unfold format_table, set_table_cell_shading, apply_table_alternating_rows,
    highlight_table_header.
  rewrite Hopen. repeat split.
Qed.

(** With two tables in the file, index 2 and index -1 name none. *)
Lemma table_tools_invalid_table_index_witness :
  apply_table_alternating_rows parse_plain Examples.tables_file 2 "FFFFFF" "F2F2F2"
  = (InvalidTableIndex 2, tf_tables Examples.tables_file)
  /\ highlight_table_header parse_plain Py.int16_digits Examples.tables_file (-1)
       "4472C4" "FFFFFF"
     = (InvalidTableIndex 2, tf_tables Examples.tables_file).
Proof.
  split.
  - apply (table_tools_invalid_table_index parse_plain Py.int16_digits
             Examples.tables_file 2 eq_refl eq_refl).
    simpl. lia.
  - apply (table_tools_invalid_table_index parse_plain Py.int16_digits
             Examples.tables_file (-1) eq_refl eq_refl).
    simpl. lia.
Defined.

(** X19.  [set_table_cell_shading] checks the row index against the
    table's rows and then the column index against the cells of that row: a
    row index outside [0, R) is answered with the number of rows, a column
    index outside [0, C(row)) with the number of cells of the row, and in
    both cases nothing is saved. *)
Theorem set_table_cell_shading_checks
    parse_shd f table_index row_index col_index fill_color pattern t :
  tf_exists f = true -> fst (tf_writeable f) = true ->
  0 <= table_index -> tf_tables f !! Z.to_nat table_index = Some t ->
  let res := set_table_cell_shading parse_shd f table_index row_index col_index
               fill_color pattern in
  (~ (0 <= row_index < Z.of_nat (length (rows t))) ->
   res = (InvalidRowIndex (Z.of_nat (length (rows t))), tf_tables f))
  /\ (0 <= row_index < Z.of_nat (length (rows t)) ->
      ~ (0 <= col_index < Z.of_nat (length (row_cells t row_index))) ->
      res = (InvalidColumnIndex (Z.of_nat (length (row_cells t row_index))),
             tf_tables f)).
Proof.
  intros Hex Hwr Hidx Ht res. subst res. unfold set_table_cell_shading.
  rewrite (open_table_found f table_index t Hex Hwr Hidx Ht). split.
  - intros Hrow.
    destruct (Z.ltb_spec row_index 0); [reflexivity|].
    destruct (Z.leb_spec (Z.of_nat (length (rows t))) row_index); [reflexivity|].
    exfalso. apply Hrow. lia.
  - intros Hrow Hcol.
    replace (row_index <? 0) with false by (symmetry; apply Z.ltb_ge; lia).
    replace (Z.of_nat (length (rows t)) <=? row_index) with false
      by (symmetry; apply Z.leb_gt; lia).
    cbn [orb].
    destruct (Z.ltb_spec col_index 0); [reflexivity|].
    destruct (Z.leb_spec (Z.of_nat (length (row_cells t row_index))) col_index);
      [reflexivity|].
    exfalso. apply Hcol. lia.
Qed.

(** In the two-by-two table row 2 does not exist, and row 1 has no
    column 2. *)
Lemma set_table_cell_shading_checks_witness :
  set_table_cell_shading parse_plain Examples.tables_file 0 2 0 "FF0000" "clear"
  = (InvalidRowIndex 2, tf_tables Examples.tables_file)
  /\ set_table_cell_shading parse_plain Examples.tables_file 0 1 2 "FF0000" "clear"
     = (InvalidColumnIndex 2, tf_tables Examples.tables_file).
Proof.
  split.
  - apply (proj1 (set_table_cell_shading_checks parse_plain Examples.tables_file
                    0 2 0 "FF0000" "clear" Examples.grid_table
                    eq_refl eq_refl ltac:(lia) eq_refl)).
    simpl. lia.
  - apply (proj2 (set_table_cell_shading_checks parse_plain Examples.tables_file
                    0 1 2 "FF0000" "clear" Examples.grid_table
                    eq_refl eq_refl ltac:(lia) eq_refl)).
    + simpl. lia.
    + simpl. lia.
Defined.

(** The core call at a position inside the table. *)
Lemma set_cell_shading_by_position_at
    parse_shd t row_index col_index fill_color pattern row id c :
  0 <= row_index -> 0 <= col_index ->
  rows t !! Z.to_nat row_index = Some row ->
  row !! Z.to_nat col_index = Some id ->
  cells t !! id = Some c ->
  set_cell_shading_by_position parse_shd t row_index col_index fill_color pattern
  = (mkTable
       (<[id := fst (set_cell_shading parse_shd c fill_color pattern "auto")]>
          (cells t))
       (rows t),
     snd (set_cell_shading parse_shd c fill_color pattern "auto")).
Proof.
  intros Hr Hc Hrow Hid Hcell. unfold set_cell_shading_by_position.
  assert (Hcells : row_cells t row_index = row).
  { unfold row_cells. now rewrite Hrow. }
  rewrite Hcells.
  pose proof (lookup_lt_Some _ _ _ Hrow) as Hlt1.
  pose proof (lookup_lt_Some _ _ _ Hid) as Hlt2.
  replace (0 <=? row_index) with true by (symmetry; apply Z.leb_le; lia).
  replace (row_index <? Z.of_nat (length (rows t))) with true
    by (symmetry; apply Z.ltb_lt; lia).
  replace (0 <=? col_index) with true by (symmetry; apply Z.leb_le; lia).
  replace (col_index <? Z.of_nat (length row)) with true
    by (symmetry; apply Z.ltb_lt; lia).
  cbn [andb]. rewrite Hid, Hcell.
  now destruct (set_cell_shading parse_shd c fill_color pattern "auto").
Qed.

Lemma set_table_cell_shading_at
    parse_shd f table_index row_index col_index fill_color pattern t row id c :
  tf_exists f = true -> fst (tf_writeable f) = true ->
  0 <= table_index -> tf_tables f !! Z.to_nat table_index = Some t ->
  0 <= row_index -> 0 <= col_index ->
  rows t !! Z.to_nat row_index = Some row ->
  row !! Z.to_nat col_index = Some id ->
  cells t !! id = Some c ->
  snd (set_cell_shading parse_shd c (Some fill_color) pattern "auto") = true ->
  set_table_cell_shading parse_shd f table_index row_index col_index
    fill_color pattern
  = (CellShaded table_index row_index col_index,
     <[Z.to_nat table_index :=
         mkTable
           (<[id := fst (set_cell_shading parse_shd c (Some fill_color) pattern
                           "auto")]> (cells t))
           (rows t)]> (tf_tables f)).
Proof.
  intros Hex Hwr Hidx Ht Hr Hc Hrow Hid Hcell Hok. unfold set_table_cell_shading.
  rewrite (open_table_found f table_index t Hex Hwr Hidx Ht).
  pose proof (lookup_lt_Some _ _ _ Hrow) as Hlt1.
  pose proof (lookup_lt_Some _ _ _ Hid) as Hlt2.
  replace (row_index <? 0) with false by (symmetry; apply Z.ltb_ge; lia).
  replace (Z.of_nat (length (rows t)) <=? row_index) with false
    by (symmetry; apply Z.leb_gt; lia).
  cbn [orb].
  assert (Hcells : row_cells t row_index = row).
  { unfold row_cells. now rewrite Hrow. }
  rewrite Hcells.
  replace (col_index <? 0) with false by (symmetry; apply Z.ltb_ge; lia).
  replace (Z.of_nat (length row) <=? col_index) with false
    by (symmetry; apply Z.leb_gt; lia).
  cbn [orb].
  rewrite (set_cell_shading_by_position_at parse_shd t row_index col_index
             (Some fill_color) pattern row id c Hr Hc Hrow Hid Hcell).
  rewrite Hok. reflexivity.
Qed.

(** X20.  For a position inside the table, a valid colour and a plain
    pattern, [set_table_cell_shading] answers success and saves the document
    with the addressed cell's first shading fragment replaced by one that
    carries the pattern, the colour "auto" and the fill in its normal form;
    every other cell and every other table is saved as it was. *)
Theorem set_table_cell_shading_valid_color
    parse_shd f table_index row_index col_index fill_color pattern t row id c :
  parses_plain parse_shd ->
  valid_fill fill_color = true -> plain_text pattern = true ->
  tf_exists f = true -> fst (tf_writeable f) = true ->
  0 <= table_index -> tf_tables f !! Z.to_nat table_index = Some t ->
  0 <= row_index -> 0 <= col_index ->
  rows t !! Z.to_nat row_index = Some row ->
  row !! Z.to_nat col_index = Some id ->
  cells t !! id = Some c ->
  set_table_cell_shading parse_shd f table_index row_index col_index
    fill_color pattern
  = (CellShaded table_index row_index col_index,
     <[Z.to_nat table_index :=
         mkTable
           (<[id := mkCell
                      (Some (remove_first "w:shd" (get_or_add_tcPr c)
                             ++ [shd_element
                                   [("w:val", pattern); ("w:color", "auto");
                                    ("w:fill", normalize_fill_color fill_color)]]))
                      (paragraphs c)]> (cells t))
           (rows t)]> (tf_tables f)).
Proof.
  intros Hparse Hv Hp Hex Hwr Hidx Ht Hr Hc Hrow Hid Hcell.
  pose proof (set_cell_shading_valid parse_shd Hparse c fill_color pattern "auto"
                Hv Hp eq_refl) as Hs.
  rewrite (set_table_cell_shading_at parse_shd f table_index row_index col_index
             fill_color pattern t row id c) by (first [assumption | now rewrite Hs]).
  now rewrite Hs.
Qed.

(** The second cell of row 0 of the two-by-two table, shaded red. *)
Lemma set_table_cell_shading_valid_color_witness :
  fst (set_table_cell_shading parse_plain Examples.tables_file 0 0 1 "#ff0000" "solid")
  = CellShaded 0 0 1.
Proof.
  rewrite (set_table_cell_shading_valid_color parse_plain Examples.tables_file
             0 0 1 "#ff0000" "solid" Examples.grid_table [0%nat; 1%nat] 1%nat
             Examples.shaded_cell parse_plain_parses eq_refl eq_refl eq_refl eq_refl
             ltac:(lia) eq_refl ltac:(lia) ltac:(lia) eq_refl eq_refl eq_refl).
  reflexivity.
Defined.

(** X21.  A colour text whose normal form is not six characters long, a
    colour name such as "red" for one, is not reported: for a position
    inside the table and a plain pattern, [set_table_cell_shading] answers
    success, and the fragment it saves in the cell carries the pattern and
    the colour "auto" and no fill at all, the cell's earlier shading being
    removed. *)
Theorem set_table_cell_shading_color_name_ignored
    parse_shd f table_index row_index col_index fill_color pattern t row id c :
  parses_plain parse_shd ->
  Py.len (normalize_fill_color fill_color) <> 6 -> plain_text pattern = true ->
  tf_exists f = true -> fst (tf_writeable f) = true ->
  0 <= table_index -> tf_tables f !! Z.to_nat table_index = Some t ->
  0 <= row_index -> 0 <= col_index ->
  rows t !! Z.to_nat row_index = Some row ->
  row !! Z.to_nat col_index = Some id ->
  cells t !! id = Some c ->
  set_table_cell_shading parse_shd f table_index row_index col_index
    fill_color pattern
  = (CellShaded table_index row_index col_index,
     <[Z.to_nat table_index :=
         mkTable
           (<[id := mkCell
                      (Some (remove_first "w:shd" (get_or_add_tcPr c)
                             ++ [shd_element
                                   [("w:val", pattern); ("w:color", "auto")]]))
                      (paragraphs c)]> (cells t))
           (rows t)]> (tf_tables f)).
Proof.
  intros Hparse Hlen Hp Hex Hwr Hidx Ht Hr Hc Hrow Hid Hcell.
  pose proof (set_cell_shading_no_fill parse_shd Hparse c fill_color pattern "auto"
                Hlen Hp eq_refl) as Hs.
  rewrite (set_table_cell_shading_at parse_shd f table_index row_index col_index
             fill_color pattern t row id c) by (first [assumption | now rewrite Hs]).
  now rewrite Hs.
Qed.

(** Asking for "red" on the cell that was shaded white leaves it with a
    fragment without fill. *)
Lemma set_table_cell_shading_color_name_ignored_witness :
  set_table_cell_shading parse_plain Examples.tables_file 0 0 1 "red" "clear"
  = (CellShaded 0 0 1,
     [mkTable
        [Examples.blank_cell;
         mkCell (Some [shd_element [("w:val", "clear"); ("w:color", "auto")]])
                (paragraphs Examples.shaded_cell);
         Examples.blank_cell; Examples.blank_cell]
        (rows Examples.grid_table);
      Examples.merged_table]).
Proof.
  rewrite (set_table_cell_shading_color_name_ignored parse_plain Examples.tables_file
             0 0 1 "red" "clear" Examples.grid_table [0%nat; 1%nat] 1%nat
             Examples.shaded_cell parse_plain_parses ltac:(vm_compute; discriminate)
             eq_refl eq_refl eq_refl
             ltac:(lia) eq_refl ltac:(lia) ltac:(lia) eq_refl eq_refl eq_refl).
  reflexivity.
Defined.

Lemma save_table_frame (f : table_file) (table_index : Z) (t : table) :
  length (save_table f table_index t) = length (tf_tables f)
  /\ forall j, j <> Z.to_nat table_index ->
                save_table f table_index t !! j = tf_tables f !! j.
Proof.
  unfold save_table. split; [apply length_insert|].
  intros j Hj. apply list_lookup_insert_ne. congruence.
Qed.

(** The shape every table tool has: the checks, the core call, and a save
    when the core call returned [True]. *)
Lemma tool_frame (f : table_file) (table_index : Z) (done : table_reply)
    (core : table -> table * bool) :
  let res := match open_table f table_index with
             | inl reply => (reply, tf_tables f)
             | inr t =>
                 let '(t', success) := core t in
                 if success then (done, save_table f table_index t')
                 else (ToolFailed, tf_tables f)
             end in
  done <> ToolFailed ->
  length (snd res) = length (tf_tables f)
  /\ (forall j, j <> Z.to_nat table_index -> snd res !! j = tf_tables f !! j)
  /\ (fst res <> done -> snd res = tf_tables f).
Proof.
  intros res Hdone. subst res.
  destruct (open_table f table_index) as [reply|t]; [repeat split|].
  destruct (core t) as [t' [|]]; [|repeat split].
  cbn [fst snd]. destruct (save_table_frame f table_index t') as [Hlen Hother].
  split; [exact Hlen|]. split; [exact Hother|].
  intros H. now elim H.
Qed.

(** X22.  Each table tool saves only when it answers success, and then it
    saves one table in place of the addressed one: whatever the arguments,
    the number of tables and every table other than the addressed one are
    as before, and with any answer but the tool's success the whole
    document is. *)
Theorem table_tools_frame parse_shd int16 (f : table_file) (table_index : Z) :
  (forall has_header_row border_style shading,
     let res := format_table parse_shd f table_index has_header_row border_style
                  shading in
     length (snd res) = length (tf_tables f)
     /\ (forall j, j <> Z.to_nat table_index -> snd res !! j = tf_tables f !! j)
     /\ (fst res <> TableFormatted table_index -> snd res = tf_tables f))
  /\ (forall color1 color2,
        let res := apply_table_alternating_rows parse_shd f table_index color1
                     color2 in
        length (snd res) = length (tf_tables f)
        /\ (forall j, j <> Z.to_nat table_index -> snd res !! j = tf_tables f !! j)
        /\ (fst res <> RowsShaded table_index -> snd res = tf_tables f))
  /\ (forall header_color text_color,
        let res := highlight_table_header parse_shd int16 f table_index header_color
                     text_color in
        length (snd res) = length (tf_tables f)
        /\ (forall j, j <> Z.to_nat table_index -> snd res !! j = tf_tables f !! j)
        /\ (fst res <> HeaderHighlighted table_index -> snd res = tf_tables f))
  /\ (forall row_index col_index fill_color pattern,
        let res := set_table_cell_shading parse_shd f table_index row_index col_index
                     fill_color pattern in
        length (snd res) = length (tf_tables f)
        /\ (forall j, j <> Z.to_nat table_index -> snd res !! j = tf_tables f !! j)
        /\ (fst res <> CellShaded table_index row_index col_index ->
            snd res = tf_tables f)).
Proof.
  split; [|split; [|split]].
  - intros h b sh.
    apply (tool_frame f table_index (TableFormatted table_index)
             (fun t => apply_table_style parse_shd t (default false h) b sh)).
    discriminate.
  - intros c1 c2.
    apply (tool_frame f table_index (RowsShaded table_index)
             (fun t => apply_alternating_row_shading parse_shd t c1 c2)).
    discriminate.
  - intros hc tc.
    apply (tool_frame f table_index (HeaderHighlighted table_index)
             (fun t => highlight_header_row parse_shd int16 t hc tc)).
    discriminate.
  - intros ri ci fill pattern res. subst res. unfold set_table_cell_shading.
    destruct (open_table f table_index) as [reply|t] eqn:Hopen; [repeat split|].
    destruct (_ || _); [repeat split|].
    destruct (_ || _); [repeat split|].
    destruct (set_cell_shading_by_position parse_shd t ri ci (Some fill) pattern)
      as [t' [|]]; [|repeat split].
    cbn [fst snd]. destruct (save_table_frame f table_index t') as [Hlen Hother].
    split; [exact Hlen|]. split; [exact Hother|].
    intros H. now elim H.
Qed.

Lemma highlight_header_row_returns parse_shd int16 t header_color text_color :
  snd (highlight_header_row parse_shd int16 t header_color text_color) = true.
Proof. unfold highlight_header_row. now destruct (rows t). Qed.

(** X23.  The three whole-table tools cannot answer failure: with the file
    present and writeable and the table index naming a table, [format_table],
    [apply_table_alternating_rows] and [highlight_table_header] always
    answer success, whatever the styles and colours, and save the table the
    core function left. *)
Theorem whole_table_tools_succeed parse_shd int16 (f : table_file)
    (table_index : Z) (t : table) :
  tf_exists f = true -> fst (tf_writeable f) = true ->
  0 <= table_index -> tf_tables f !! Z.to_nat table_index = Some t ->
  (forall has_header_row border_style shading,
     format_table parse_shd f table_index has_header_row border_style shading
     = (TableFormatted table_index,
        save_table f table_index
          (fst (apply_table_style parse_shd t (default false has_header_row)
                  border_style shading))))
  /\ (forall color1 color2,
        apply_table_alternating_rows parse_shd f table_index color1 color2
        = (RowsShaded table_index,
           save_table f table_index
             (fst (apply_alternating_row_shading parse_shd t color1 color2))))
  /\ (forall header_color text_color,
        highlight_table_header parse_shd int16 f table_index header_color text_color
        = (HeaderHighlighted table_index,
           save_table f table_index
             (fst (highlight_header_row parse_shd int16 t header_color text_color)))).
Proof.
  intros Hex Hwr Hidx Ht.
  pose proof (open_table_found f table_index t Hex Hwr Hidx Ht) as Hopen.
  unfold format_table, apply_table_alternating_rows, highlight_table_header.
  rewrite Hopen. split; [|split].
  - intros h b sh.
    destruct (apply_table_style_steps parse_shd t (default false h) b sh)
      as (store' & -> & _). reflexivity.
  - intros c1 c2. reflexivity.
  - intros hc tc.
    pose proof (highlight_header_row_returns parse_shd int16 t hc tc) as Hok.
    destruct (highlight_header_row parse_shd int16 t hc tc) as [t' ok].
    cbn [snd] in Hok. subst ok. reflexivity.
Qed.

(** On the second table of the example file, with colours that are no
    colours. *)
Lemma whole_table_tools_succeed_witness :
  fst (apply_table_alternating_rows parse_plain Examples.tables_file 1 "<" "&")
  = RowsShaded 1
  /\ fst (highlight_table_header parse_plain Py.int16_digits Examples.tables_file 1
            "<" "&")
     = HeaderHighlighted 1.
Proof.
  destruct (whole_table_tools_succeed parse_plain Py.int16_digits
              Examples.tables_file 1 Examples.merged_table
              eq_refl eq_refl ltac:(lia) eq_refl) as (_ & H2 & H3).
  split; [now rewrite H2 | now rewrite H3].
Defined.

(** *** The text formatter as a whole *)

(** X24.  [format_text] touches one paragraph at most, and only when it
    answers success: whatever the arguments, the number of paragraphs and
    every paragraph other than the addressed one are as before, and with
    any error answer the whole document is. *)
Theorem format_text_frame
    int16 f idx s e bold italic underline color size name :
  let res := format_text int16 f idx s e bold italic underline color size name in
  length (snd res) = length (file_paragraphs f)
  /\ (forall j, j <> Z.to_nat idx -> snd res !! j = file_paragraphs f !! j)
  /\ (is_error (fst res) = true -> snd res = file_paragraphs f).
Proof.
  intros res. subst res. unfold format_text.
  destruct (negb (file_exists f)); [repeat split|].
  destruct (negb (fst (file_writeable f))); [repeat split|].
  destruct (_ || _); [repeat split|].
  destruct (file_paragraphs f !! Z.to_nat idx) as [p|]; [|repeat split].
  destruct (_ || _); [repeat split|].
  destruct (split_runs int16 p s e bold italic underline color size name) as [p'|];
    [|repeat split].
  cbn [fst snd is_error]. split; [apply length_insert|]. split.
  - intros j Hj. apply list_lookup_insert_ne. congruence.
  - discriminate.
Qed.

Lemma length_take (n : nat) (s : string) :
  String.length (Py.take n s) = Nat.min n (String.length s).
Proof.
  revert s. induction n as [|n IH]; intros [|c s]; simpl; try reflexivity.
  now rewrite IH.
Qed.

(** X25.  [format_text] answers success only for a range inside the text:
    when the answer is the success message, the file is present and
    writeable, the paragraph index names a paragraph, the positions satisfy
    0 <= start_pos < end_pos <= len(text), and the text the message quotes
    is the end_pos - start_pos characters of the paragraph from start_pos
    on. *)
Theorem format_text_success_range
    int16 f idx s e bold italic underline color size name target quoted_index :
  fst (format_text int16 f idx s e bold italic underline color size name)
  = Formatted target quoted_index ->
  file_exists f = true /\ fst (file_writeable f) = true
  /\ quoted_index = idx
  /\ exists p,
      0 <= idx /\ file_paragraphs f !! Z.to_nat idx = Some p
      /\ 0 <= s < e /\ e <= Py.len (paragraph_text p)
      /\ target = Py.slice (paragraph_text p) (Some s) (Some e)
      /\ Py.len target = e - s.
Proof.
  unfold format_text.
  destruct (file_exists f); cbn [negb]; [|discriminate].
  destruct (fst (file_writeable f)); cbn [negb]; [|discriminate].
  destruct (Z.ltb_spec idx 0); cbn [orb]; [discriminate|].
  destruct (Z.leb_spec (Z.of_nat (length (file_paragraphs f))) idx); cbn [orb];
    [discriminate|].
  destruct (file_paragraphs f !! Z.to_nat idx) as [p|] eqn:Hp; [|discriminate].
  destruct (Z.ltb_spec s 0); cbn [orb]; [discriminate|].
  destruct (Z.ltb_spec (Py.len (paragraph_text p)) e); cbn [orb]; [discriminate|].
  destruct (Z.leb_spec e s); [discriminate|].
  destruct (split_runs int16 p s e bold italic underline color size name);
    [|discriminate].
  cbn [fst]. intros Hres. inversion Hres. subst target quoted_index.
  repeat split. exists p. repeat split; try lia; try reflexivity.
  rewrite PyFacts.slice_middle by lia. unfold Py.len in *.
  rewrite length_take, PyFacts.length_drop. lia.
Qed.

(** On "Hello World", positions 6..11: the message quotes five
    characters. *)
Lemma format_text_success_range_witness :
  exists p,
    file_paragraphs Examples.hello_file !! 0%nat = Some p
    /\ 6 < 11 <= Py.len (paragraph_text p).
Proof.
  destruct (format_text_success_range Py.int16_digits Examples.hello_file 0 6 11
              (Some true) None None None None None "World" 0 eq_refl)
    as (_ & _ & _ & p & _ & Hp & H1 & H2 & _).
  exists p. split; [exact Hp | lia].
Defined.

End ToolProofs.
